(** * blog-generator: the post ingestion pipeline of [generator/post.go]

    A shallow embedding of [getMeta], [getHTML], [replaceCodeParts],
    [getImages], [newPost] and the [ByDateDesc] ordering, with the
    properties of the repository's specification settled against it.

    Go strings and byte slices are byte sequences: both are [string] here.
    A Go function returning [(v, error)] returns a pair whose error
    component is [option error] ([None] is Go's [nil]).  The packages the
    source imports (bufio, yaml, time, goquery, blackfriday,
    syntaxhighlight, os, filepath) are not part of the repository: their
    small, fixed behaviour is written out where the source depends on it
    and everything else is a [Variable] of the section that uses it. *)

From Stdlib Require Import String Ascii List ZArith Lia Bool Arith.
From Stdlib Require Import Sorting.Permutation Sorting.Sorted.
Import ListNotations.
Open Scope string_scope.
Set Warnings "-register-all".

(** ** Byte strings *)

Module Bytes.

(** The line feed, Go's ['\n']. *)
Definition nl : ascii := "010"%char.

(** The double quote, which the source writes inside two messages. *)
Definition dq : string := String "034"%char EmptyString.

(** [strings.HasPrefix(s, prefix)]. *)
Fixpoint HasPrefix (s prefix : string) {struct prefix} : bool :=
  match prefix with
  | EmptyString => true
  | String c p =>
      match s with
      | EmptyString => false
      | String d s' => Ascii.eqb d c && HasPrefix s' p
      end
  end.

(** [strings.Index(s, sep) >= 0], by scanning the start positions. *)
Fixpoint Contains (s sep : string) : bool :=
  HasPrefix s sep ||
  match s with
  | EmptyString => false
  | String _ s' => Contains s' sep
  end.

(** Drop the first [n] bytes. *)
Fixpoint skip (n : nat) (s : string) : string :=
  match n, s with
  | O, _ => s
  | S _, EmptyString => EmptyString
  | S n', String _ s' => skip n' s'
  end.

(** [strings.Replace(s, old, "", 1)]: the first occurrence of [old], the
    leftmost one, is removed; [s] is returned as it is when there is none. *)
Fixpoint RemoveFirst (s old : string) : string :=
  if HasPrefix s old then skip (String.length old) s
  else match s with
       | EmptyString => EmptyString
       | String c s' => String c (RemoveFirst s' old)
       end.

(** No line feed occurs in [s]. *)
Fixpoint no_nl (s : string) : bool :=
  match s with
  | EmptyString => true
  | String c s' => negb (Ascii.eqb c nl) && no_nl s'
  end.

(** Split at the first line feed: the line with its line feed, and the rest.
    [None] when [s] has no line feed. *)
Fixpoint cut_line (s : string) : option (string * string) :=
  match s with
  | EmptyString => None
  | String c s' =>
      if Ascii.eqb c nl then Some (String c EmptyString, s')
      else match cut_line s' with
           | Some (l, r) => Some (String c l, r)
           | None => None
           end
  end.

(** Lines, each closed by its line feed, laid end to end. *)
Fixpoint unlines (ls : list string) : string :=
  match ls with
  | [] => EmptyString
  | l :: ls' => l ++ String nl (unlines ls')
  end.

End Bytes.
Import Bytes.

(** ** Post documents *)

(** A line of the header body: no line feed inside, and not a fence. *)
Definition header_line (l : string) : Prop :=
  no_nl l = true /\ HasPrefix (l ++ String nl EmptyString) "---" = false.

(** A post document: the opening fence line, the header lines, the closing
    fence line, the body.  [x] and [y] are what follows the three dashes on
    the fence lines. *)
Definition fenced (x : string) (ls : list string) (y body : string) : string :=
  "---" ++ x ++ String nl (unlines ls ++ "---" ++ y ++ String nl body).

(** ** Errors *)

(** The [syscall.Errno] values that matter to the source. *)
Inductive Errno := ENOENT | EACCES | ENOTDIR | EIO.

Definition Errno_Error (e : Errno) : string :=
  match e with
  | ENOENT => "no such file or directory"
  | EACCES => "permission denied"
  | ENOTDIR => "not a directory"
  | EIO => "input/output error"
  end.

(** Go's [error] values as the source meets them: the sentinels it compares
    against or receives, the [*os.PathError] of a failed system call, the
    errors of the imported libraries, and what [fmt.Errorf] builds. *)
Inductive error :=
| io_EOF
| os_ErrInvalid
| PathError (op path : string) (errno : Errno)
| lib_error (msg : string)
| Errorf (msg : string).

(** The [Error()] method. *)
Definition Error (e : error) : string :=
  match e with
  | io_EOF => "EOF"
  | os_ErrInvalid => "invalid argument"
  | PathError op path errno => op ++ " " ++ path ++ ": " ++ Errno_Error errno
  | lib_error msg => msg
  | Errorf msg => msg
  end.

(** The verb [%v] applied to an error, which may be nil. *)
Definition fmt_v (e : option error) : string :=
  match e with
  | None => "<nil>"
  | Some e' => Error e'
  end.

(** [os.IsNotExist]. *)
Definition os_IsNotExist (e : error) : bool :=
  match e with
  | PathError _ _ ENOENT => true
  | _ => false
  end.

(** [err != io.EOF]. *)
Definition is_EOF (e : error) : bool :=
  match e with
  | io_EOF => true
  | _ => false
  end.

(** ** Streams *)

(** A [*bufio.Reader] over its source: the bytes still to be delivered, and
    the error the source reports once they are used up, again at every later
    read ([io.EOF] at the end of a file, [os.ErrInvalid] for a nil
    [*os.File]). *)
Record Reader := mkReader { pending : string; final : error }.

(** [br.ReadString('\n')]: the bytes up to and including the first line
    feed; without one, all that is left together with the source's error. *)
Definition ReadString (br : Reader) : string * option error * Reader :=
  match cut_line (pending br) with
  | Some (line, rest) => (line, None, mkReader rest (final br))
  | None => (pending br, Some (final br), mkReader EmptyString (final br))
  end.

(** [ioutil.ReadAll(br)]: everything up to the end; [io.EOF] is not reported
    as an error, any other error is. *)
Definition ReadAll (br : Reader) : string * option error * Reader :=
  (pending br,
   if is_EOF (final br) then None else Some (final br),
   mkReader EmptyString (final br)).

(** An open [*os.File] as a source of bytes: its contents from the read
    position on, and the error that ends the reading. *)
Record File := mkFile { File_bytes : string; File_end : error }.

(** [bufio.NewReader(file)].  Reading a nil [*os.File] fails with
    [os.ErrInvalid] before any byte is delivered. *)
Definition bufio_NewReader (file : option File) : Reader :=
  match file with
  | Some f => mkReader (File_bytes f) (File_end f)
  | None => mkReader EmptyString os_ErrInvalid
  end.

(** ** The data model *)

(** [time.Time] as the comparison in [Less] sees it.  A value that
    [time.Parse] returns carries no monotonic clock reading, so it is the
    pair that [Time.sec()] and [Time.nsec()] read: seconds since January 1 of
    year 1, and nanoseconds within the second.  [Time{}] is that instant. *)
Record Time := mkTime { sec : Z; nsec : Z }.

Definition zeroTime : Time := mkTime 0 0.

(** [t.After(u)] without monotonic readings:
    [ts > us || ts == us && t.nsec() > u.nsec()]. *)
Definition After (t u : Time) : bool :=
  (sec t >? sec u)%Z || ((sec t =? sec u)%Z && (nsec t >? nsec u)%Z).

(** Modelled from the spec: the struct [Meta] is declared in another file
    of the package, not in post.go; section 3 of the specification gives its
    four fields, and post.go reads [Title], [Short], [Date] and writes
    [ParsedDate]. *)
Record Meta := mkMeta {
  Title : string;
  Short : string;
  Date : string;
  ParsedDate : Time
}.

(** [Meta{}]. *)
Definition zeroMeta : Meta := mkMeta "" "" "" zeroTime.

Definition with_ParsedDate (m : Meta) (t : Time) : Meta :=
  mkMeta (Title m) (Short m) (Date m) t.

(** [type Post struct].  [Meta] is a pointer: [None] is nil. *)
Record Post := mkPost {
  Post_Name : string;
  Post_HTML : string;
  Post_Meta : option Meta;
  Post_ImagesDir : string;
  Post_Images : list string
}.

(** What the source reads of an [os.FileInfo]. *)
Record FileInfo := mkFileInfo { FileInfo_Name : string; FileInfo_IsDir : bool }.

(** ** The document tree of the highlighter *)

(** [html.Node], by its [Type]: text, comment, element with its attributes
    in source order, and the document node at the root. *)
Inductive Node :=
| TextNode (data : string)
| CommentNode (data : string)
| ElementNode (tag : string) (attr : list (string * string)) (children : list Node)
| DocumentNode (children : list Node).

(** The selector [code[class*="language-"]] on one node: an element named
    [code] with a [class] attribute whose value contains [language-]
    anywhere. *)
Definition is_code_part (n : Node) : bool :=
  match n with
  | ElementNode tag attr _ =>
      String.eqb tag "code" &&
      existsb (fun kv => String.eqb (fst kv) "class" && Contains (snd kv) "language-") attr
  | _ => false
  end.

(** [s.Text()]: the text nodes below a node, in document order. *)
Fixpoint Text (n : Node) : string :=
  match n with
  | TextNode data => data
  | CommentNode _ => EmptyString
  | ElementNode _ _ children => String.concat "" (map Text children)
  | DocumentNode children => String.concat "" (map Text children)
  end.

(** The children of a node. *)
Definition Children (n : Node) : list Node :=
  match n with
  | ElementNode _ _ children => children
  | DocumentNode children => children
  | _ => []
  end.

(** The elements that [doc.Find] selects below a node, in document order. *)
Fixpoint Find (n : Node) : list Node :=
  let below := flat_map (fun c => (if is_code_part c then [c] else []) ++ Find c)%list in
  match n with
  | ElementNode _ _ children => below children
  | DocumentNode children => below children
  | _ => []
  end.

(** Induction on a node with the property known of all its children. *)
Section Node_induction.
Variable P : Node -> Prop.
Hypothesis P_text : forall data, P (TextNode data).
Hypothesis P_comment : forall data, P (CommentNode data).
Hypothesis P_element :
  forall tag attr children, Forall P children -> P (ElementNode tag attr children).
Hypothesis P_document : forall children, Forall P children -> P (DocumentNode children).

Fixpoint Node_children_ind (n : Node) : P n :=
  let all := fix all (cs : list Node) : Forall P cs :=
    match cs with
    | [] => Forall_nil P
    | c :: cs' => Forall_cons c (Node_children_ind c) (all cs')
    end in
  match n with
  | TextNode data => P_text data
  | CommentNode data => P_comment data
  | ElementNode tag attr children => P_element tag attr children (all children)
  | DocumentNode children => P_document children (all children)
  end.

End Node_induction.

(** ** Ordering of posts *)

(** [type ByDateDesc []*Post]: the slice, its elements by index. *)
Definition ByDateDesc := list Post.

(** [p[i]]: out of range is a run-time panic, [None]. *)
Definition at_index (p : ByDateDesc) (i : nat) : option Post := nth_error p i.

(** [p[i] = x] for [i] in range. *)
Fixpoint set_index (p : ByDateDesc) (i : nat) (x : Post) : ByDateDesc :=
  match p, i with
  | [], _ => []
  | _ :: p', O => x :: p'
  | y :: p', S i' => y :: set_index p' i' x
  end.

Module ByDateDesc_.

Definition Len (p : ByDateDesc) : nat := List.length p.

(** [p[i], p[j] = p[j], p[i]]: both are read, then both are written. *)
Definition Swap (p : ByDateDesc) (i j : nat) : option ByDateDesc :=
  match at_index p i, at_index p j with
  | Some a, Some b => Some (set_index (set_index p i b) j a)
  | _, _ => None
  end.

(** [p[i].Meta.ParsedDate.After(p[j].Meta.ParsedDate)]: an index out of
    range or a nil [Meta] is a panic, [None]. *)
Definition Less (p : ByDateDesc) (i j : nat) : option bool :=
  match at_index p i, at_index p j with
  | Some a, Some b =>
      match Post_Meta a, Post_Meta b with
      | Some ma, Some mb => Some (After (ParsedDate ma) (ParsedDate mb))
      | _, _ => None
      end
  | _, _ => None
  end.

End ByDateDesc_.

(** *** The slice with its pointers

    [[]*Post] as Go has it: an element may be nil, [None], and an index is
    an [int], which may be negative.  The definitions above are these on
    slices without nil elements and on indices that are not negative. *)

Definition PostPointers := list (option Post).

(** [p[i]] for an [int] index: out of range, negative included, is a
    run-time panic, [None]. *)
Definition slice_at {A : Type} (p : list A) (i : Z) : option A :=
  if (i <? 0)%Z then None else nth_error p (Z.to_nat i).

(** [p[i] = x] for [i] in range. *)
Fixpoint list_set {A : Type} (p : list A) (i : nat) (x : A) : list A :=
  match p, i with
  | [], _ => []
  | _ :: p', O => x :: p'
  | y :: p', S i' => y :: list_set p' i' x
  end.

Module PostPointers_.

Definition Len (p : PostPointers) : Z := Z.of_nat (List.length p).

(** [p[i], p[j] = p[j], p[i]]: the elements are moved, not dereferenced. *)
Definition Swap (p : PostPointers) (i j : Z) : option PostPointers :=
  match slice_at p i, slice_at p j with
  | Some a, Some b => Some (list_set (list_set p (Z.to_nat i) b) (Z.to_nat j) a)
  | _, _ => None
  end.

(** [p[i].Meta.ParsedDate.After(p[j].Meta.ParsedDate)]: the index, the
    element and its [Meta] are each a place to panic. *)
Definition Less (p : PostPointers) (i j : Z) : option bool :=
  match slice_at p i, slice_at p j with
  | Some (Some a), Some (Some b) =>
      match Post_Meta a, Post_Meta b with
      | Some ma, Some mb => Some (After (ParsedDate ma) (ParsedDate mb))
      | _, _ => None
      end
  | _, _ => None
  end.

End PostPointers_.

(** *** Descending order *)

(** [t] is strictly after [u]: later second, or the same second and later
    nanosecond. *)
Definition strictly_after (t u : Time) : Prop :=
  (sec u < sec t \/ (sec u = sec t /\ nsec u < nsec t))%Z.

(** The date that [Less] reads of a post. *)
Definition date_of (a : Post) : option Time :=
  match Post_Meta a with
  | Some m => Some (ParsedDate m)
  | None => None
  end.

(** The sort key of a post, [Time{}] standing in where [Meta] is nil. *)
Definition key (a : Post) : Time :=
  match date_of a with
  | Some t => t
  | None => zeroTime
  end.

(** [b] may follow [a] in descending order: [b] is not strictly after [a]. *)
Definition may_follow (a b : Post) : Prop := After (key b) (key a) = false.

(** Where the inner loop of the insertion sort leaves its element.  [r] is
    the sorted part from its last element back to its first: [x] passes the
    elements it is strictly after and stops at the first it is not. *)
Fixpoint settle (x : Post) (r : list Post) : list Post :=
  match r with
  | [] => [x]
  | y :: r' => if After (key x) (key y) then y :: settle x r' else x :: r
  end.

(** The post's sort key is the instant [t]. *)
Definition same_date (t : Time) (a : Post) : bool :=
  ((sec (key a) =? sec t) && (nsec (key a) =? nsec t))%Z.

(** ** [sort.Interface] and the insertion sort of package sort *)

(** [sort.Interface]: [Len], [Less], [Swap]; the two that index may panic. *)
Class Interface (T : Type) := {
  Len : T -> nat;
  Less : T -> nat -> nat -> option bool;
  Swap : T -> nat -> nat -> option T
}.

#[export] Instance ByDateDesc_Interface : Interface ByDateDesc := {
  Len := ByDateDesc_.Len;
  Less := ByDateDesc_.Less;
  Swap := ByDateDesc_.Swap
}.

Section InsertionSort.
Context {T : Type} `{Interface T}.

(** [for j := i; j > a && data.Less(j, j-1); j-- { data.Swap(j, j-1) }]. *)
Fixpoint sift (data : T) (a j : nat) : option T :=
  match j with
  | O => Some data
  | S j' =>
      if (S j' <=? a)%nat then Some data
      else match Less data (S j') j' with
           | None => None
           | Some false => Some data
           | Some true =>
               match Swap data (S j') j' with
               | None => None
               | Some data' => sift data' a j'
               end
           end
  end.

(** [for i := a + 1; i < b; i++], with [n] the iterations that remain. *)
Fixpoint sift_from (data : T) (a i n : nat) : option T :=
  match n with
  | O => Some data
  | S n' =>
      match sift data a i with
      | None => None
      | Some data' => sift_from data' a (S i) n'
      end
  end.

(** [insertionSort(data, a, b)].  On a slice of at most 12 elements
    [sort.Sort(data)] is [insertionSort(data, 0, data.Len())]. *)
Definition insertionSort (data : T) (a b : nat) : option T :=
  sift_from data a (a + 1) (b - (a + 1)).

End InsertionSort.

(** ** Stand-ins for the imported packages

    Small executable instances of what the section below takes as
    variables, enough to run the pipeline on the inputs of the examples.
    Each says which package function it stands for and on what inputs it
    agrees with it. *)

Module Sample.

(** *** package time *)

Definition leap (y : Z) : bool :=
  ((y mod 4 =? 0) && (negb (y mod 100 =? 0) || (y mod 400 =? 0)))%Z.

Definition daysBefore (m : Z) : Z :=
  nth (Z.to_nat (m - 1)) [0; 31; 59; 90; 120; 151; 181; 212; 243; 273; 304; 334]%Z 0%Z.

(** [time.Date(y, m, d, 0, 0, 0, 0, time.UTC)]: midnight of a day of the
    proleptic Gregorian calendar. *)
Definition Date_ (y m d : Z) : Time :=
  let y1 := (y - 1)%Z in
  let days := (365 * y1 + y1 / 4 - y1 / 100 + y1 / 400 + daysBefore m
               + (if leap y && (2 <? m) then 1 else 0) + d - 1)%Z in
  mkTime (days * 86400) 0.

Definition digit (c : ascii) : option Z :=
  let n := nat_of_ascii c in
  if ((48 <=? n) && (n <=? 57))%nat then Some (Z.of_nat (n - 48)) else None.

Fixpoint number (s : string) (acc : Z) : option Z :=
  match s with
  | EmptyString => Some acc
  | String c s' =>
      match digit c with
      | Some d => number s' (10 * acc + d)%Z
      | None => None
      end
  end.

(** A value of the shape [2006-01-02]. *)
Definition parse_ymd (value : string) : option Time :=
  match number (substring 0 4 value) 0, number (substring 5 2 value) 0,
        number (substring 8 2 value) 0 with
  | Some y, Some m, Some d =>
      if (String.length value =? 10)%nat
         && String.eqb (substring 4 1 value) "-"
         && String.eqb (substring 7 1 value) "-"
         && (1 <=? m)%Z && (m <=? 12)%Z && (1 <=? d)%Z && (d <=? 31)%Z
      then Some (Date_ y m d) else None
  | _, _, _ => None
  end.

(** [time.Parse] for the layout [2006-01-02]; a failed parse returns
    [Time{}] with its error, as every error return of [time.Parse] does. *)
Definition time_Parse (layout value : string) : Time * option error :=
  if String.eqb layout "2006-01-02" then
    match parse_ymd value with
    | Some t => (t, None)
    | None => (zeroTime, Some (lib_error ("parsing time " ++ dq ++ value ++ dq)))
    end
  else (zeroTime, Some (lib_error ("parsing time " ++ dq ++ value ++ dq))).

(** *** package yaml *)

(** The lines of a text, without their line feeds. *)
Fixpoint lines (s : string) : list string :=
  match s with
  | EmptyString => []
  | String c s' =>
      if Ascii.eqb c nl then EmptyString :: lines s'
      else match lines s' with
           | [] => [String c EmptyString]
           | l :: ls => String c l :: ls
           end
  end.

Definition ltrim (s : string) : string :=
  match s with
  | String " " s' => s'
  | _ => s
  end.

(** [key: value] split at the first colon. *)
Fixpoint key_value (s : string) : option (string * string) :=
  match s with
  | EmptyString => None
  | String c s' =>
      if Ascii.eqb c ":" then Some (EmptyString, ltrim s')
      else match key_value s' with
           | Some (k, v) => Some (String c k, v)
           | None => None
           end
  end.

Definition set_field (m : Meta) (k v : string) : Meta :=
  if String.eqb k "title" then mkMeta v (Short m) (Date m) (ParsedDate m)
  else if String.eqb k "short" then mkMeta (Title m) v (Date m) (ParsedDate m)
  else if String.eqb k "date" then mkMeta (Title m) (Short m) v (ParsedDate m)
  else m.

Fixpoint decode (ls : list string) (m : Meta) : Meta * option error :=
  match ls with
  | [] => (m, None)
  | l :: ls' =>
      if String.eqb l EmptyString then decode ls' m
      else match key_value l with
           | Some (k, v) => decode ls' (set_field m k v)
           | None => (m, Some (lib_error "yaml: unmarshal errors"))
           end
  end.

(** [yaml.Unmarshal(h, &meta)] on a block mapping of plain one-line
    scalars, the header format of section 6: the keys [title], [short] and
    [date] fill their fields, other keys are ignored, a line that is not a
    mapping entry is an error. *)
Definition yaml_Unmarshal (h : string) (meta : Meta) : Meta * option error :=
  decode (lines h) meta.

(** *** package syntaxhighlight *)

(** A tokenizer that fails: [AsHTML] returns [nil, err] on an error. *)
Definition AsHTML_failing (src : string) : string * option error :=
  (EmptyString, Some (lib_error "syntaxhighlight: scan error")).

(** A tokenizer that succeeds and marks no token: an instance to run the
    highlighter with, not the tokenizer of the package. *)
Definition AsHTML_plain (src : string) : string * option error := (src, None).

(** *** package html *)

(** [html.EscapeString]. *)
Fixpoint escape (s : string) : string :=
  match s with
  | EmptyString => EmptyString
  | String c s' =>
      (if Ascii.eqb c "&" then "&amp;"
       else if Ascii.eqb c "<" then "&lt;"
       else if Ascii.eqb c ">" then "&gt;"
       else if Ascii.eqb c "034" then "&#34;"
       else if Ascii.eqb c "'" then "&#39;"
       else String c EmptyString) ++ escape s'
  end.

Definition render_attr (kv : string * string) : string :=
  " " ++ fst kv ++ "=" ++ dq ++ escape (snd kv) ++ dq.

(** [html.Render] on text, comments and elements that are neither void nor
    raw text: text is escaped, a comment is written between its marks, an
    element between its tags. *)
Fixpoint render (n : Node) : string :=
  match n with
  | TextNode data => escape data
  | CommentNode data => "<!--" ++ data ++ "-->"
  | ElementNode tag attr children =>
      "<" ++ tag ++ String.concat "" (map render_attr attr) ++ ">"
      ++ String.concat "" (map render children) ++ "</" ++ tag ++ ">"
  | DocumentNode children => String.concat "" (map render children)
  end.

Definition html_Render (n : Node) : string * option error := (render n, None).

(** [html.ParseFragment] on a fragment without markup: one text node, and
    no node at all for the empty fragment. *)
Definition html_ParseFragment (h : string) (context : Node) : list Node :=
  if String.eqb h EmptyString then [] else [TextNode h].

(** The document that [html.Parse] builds around body content: [html] with
    an empty [head] and the content under [body]. *)
Definition document (body : list Node) : Node :=
  DocumentNode [ElementNode "html" [] [ElementNode "head" [] []; ElementNode "body" [] body]].

(** *** packages os and filepath *)

(** [filepath.Join] of two clean, non-empty paths. *)
Definition filepath_Join (a b : string) : string := a ++ "/" ++ b.

Fixpoint last_segment (s cur : string) : string :=
  match s with
  | EmptyString => cur
  | String c s' =>
      if Ascii.eqb c "/" then last_segment s' EmptyString
      else last_segment s' (cur ++ String c EmptyString)
  end.

(** [filepath.Base] of a clean path that does not end in a separator. *)
Definition filepath_Base (path : string) : string := last_segment path EmptyString.

(** *** The inputs of the examples *)

(** A fenced code block as the markdown renderer leaves it. *)
Definition code_element : Node :=
  ElementNode "code" [("class", "language-go")] [TextNode "x := 1"].

Definition code_html : string :=
  "<pre><code class=" ++ dq ++ "language-go" ++ dq ++ ">x := 1</code></pre>".

(** A paragraph followed by a comment that spells the closing wrapper. *)
Definition comment_html : string := "<p>a</p><!--</body></html>-->".

(** [html.Parse] at the two inputs above, which are all it is applied to
    here: the content goes under [body], the comment as it is written. *)
Definition html_Parse (input : string) : Node + error :=
  if String.eqb input code_html
  then inl (document [ElementNode "pre" [] [code_element]])
  else if String.eqb input comment_html
  then inl (document [ElementNode "p" [] [TextNode "a"]; CommentNode "</body></html>"])
  else inr (lib_error "html: not an input of the examples").

(** A post directory without [post.md]. *)
Definition os_Open_missing (name : string) : option File * option error :=
  (None, Some (PathError "open" name ENOENT)).

(** A directory listing with a nested directory in it. *)
Definition ioutil_ReadDir (dirname : string) : list FileInfo + error :=
  if String.eqb dirname "blog/hello/images"
  then inl [mkFileInfo "b.png" false; mkFileInfo "a.png" false; mkFileInfo "raw" true]
  else inr (PathError "open" dirname ENOENT).

(** The header block of section 6 of the specification, and a body. *)
Definition header_lines : list string :=
  ["title: Hello"; "short: A greeting"; "date: 2023-05-01"].

Definition header_meta : Meta := mkMeta "Hello" "A greeting" "2023-05-01" zeroTime.

Definition body : string := "# Hi" ++ String nl EmptyString.

(** Three posts by their dates. *)
Definition post_of (name : string) (y m d : Z) : Post :=
  mkPost name EmptyString (Some (mkMeta name EmptyString EmptyString (Date_ y m d)))
         EmptyString [].

Definition january : Post := post_of "january" 2023 1 1.
Definition june : Post := post_of "june" 2023 6 1.
Definition december : Post := post_of "december" 2022 12 1.

End Sample.

(** ** The output stage: [copyImagesDir] and [Generate]

    These two functions act on the file system and on standard output.
    What they do is recorded as the list of the calls they make, in order;
    what each call returns is given by the environment as a function of the
    calls made before it and of its arguments. *)

(** [PostConfig]; [Post] is a pointer, [None] is nil.  [Writer] has no
    field that [Generate] reads: its one use is the call of
    [WriteIndexHTML], which is an event below. *)
Record PostConfig (Template : Type) := mkPostConfig {
  Config_Post : option Post;
  Config_Destination : string;
  Config_Template : Template
}.
Arguments mkPostConfig {Template}.
Arguments Config_Post {Template}.
Arguments Config_Destination {Template}.
Arguments Config_Template {Template}.

(** [PostGenerator]; [Config] is a pointer. *)
Record PostGenerator (Template : Type) := mkPostGenerator {
  Config : option (PostConfig Template)
}.
Arguments mkPostGenerator {Template}.
Arguments Config {Template}.

(** The calls that reach outside the program.  [copyFile] and
    [WriteIndexHTML] are functions of the package declared in other files
    than post.go: here they are calls like those of the libraries. *)
Inductive Event (Template : Type) :=
| Printf (text : string)
| Mkdir (name : string)
| ReadDir (dirname : string)
| CopyFile (src dst : string)
| WriteIndexHTML (path title short html : string) (t : Template).
Arguments Printf {Template}.
Arguments Mkdir {Template}.
Arguments ReadDir {Template}.
Arguments CopyFile {Template}.
Arguments WriteIndexHTML {Template}.

Definition is_Printf {Template : Type} (ev : Event Template) : bool :=
  match ev with
  | Printf _ => true
  | _ => false
  end.

(** The horizontal tab, Go's ['\t']. *)
Definition tab : ascii := "009"%char.

Section Output.

Variable Template : Type.
Variable filepath_Join : string -> string -> string.

(** The environment: the result of each call, given the calls before it. *)
Variable mkdir_result : list (Event Template) -> string -> option error.
Variable readdir_result : list (Event Template) -> string -> list FileInfo + error.
Variable copy_result : list (Event Template) -> string -> string -> option error.
Variable write_result :
  list (Event Template) -> string -> string -> string -> string -> Template -> option error.

(** A computation that makes calls: from the calls made so far to a result
    and the calls made by the end. *)
Definition IO (A : Type) : Type := list (Event Template) -> A * list (Event Template).

Definition ret {A : Type} (a : A) : IO A := fun h => (a, h).

Definition bind {A B : Type} (c : IO A) (k : A -> IO B) : IO B :=
  fun h => let '(a, h') := c h in k a h'.

Notation "x <- c ;; k" := (bind c (fun x => k))
  (at level 61, c at next level, right associativity).
Notation "c ;;; k" := (bind c (fun _ => k))
  (at level 61, right associativity).

(** [fmt.Printf]; its results are dropped by the source. *)
Definition fmt_Printf (text : string) : IO unit :=
  fun h => (tt, h ++ [Printf text])%list.

(** [os.Mkdir(name, os.ModePerm)]. *)
Definition os_Mkdir (name : string) : IO (option error) :=
  fun h => (mkdir_result h name, h ++ [Mkdir name])%list.

(** [ioutil.ReadDir(dirname)] at the time of the call. *)
Definition ReadDir_now (dirname : string) : IO (list FileInfo + error) :=
  fun h => (readdir_result h dirname, h ++ [ReadDir dirname])%list.

(** [copyFile(src, dst)]. *)
Definition copyFile (src dst : string) : IO (option error) :=
  fun h => (copy_result h src dst, h ++ [CopyFile src dst])%list.

(** [g.Config.Writer.WriteIndexHTML(path, title, short, html, t)]. *)
Definition Writer_WriteIndexHTML (path title short html : string) (t : Template)
  : IO (option error) :=
  fun h => (write_result h path title short html t,
            h ++ [WriteIndexHTML path title short html t])%list.

(** The [for _, file := range files] loop of [copyImagesDir]. *)
Fixpoint copy_files (source path : string) (files : list FileInfo) : IO (option error) :=
  match files with
  | [] => ret None
  | file :: files' =>
      let src := filepath_Join source (FileInfo_Name file) in
      let dst := filepath_Join path (FileInfo_Name file) in
      err <- copyFile src dst ;;
      match err with
      | Some e => ret (Some e)
      | None => copy_files source path files'
      end
  end.

(** The call that copies one entry of the listing. *)
Definition copy_event (source path : string) (file : FileInfo) : Event Template :=
  CopyFile (filepath_Join source (FileInfo_Name file))
           (filepath_Join path (FileInfo_Name file)).

(** Every copy of [files], made one after the other from [h] on, succeeds. *)
Fixpoint copies_succeed (source path : string) (files : list FileInfo)
         (h : list (Event Template)) : Prop :=
  match files with
  | [] => True
  | file :: files' =>
      copy_result h (filepath_Join source (FileInfo_Name file))
                  (filepath_Join path (FileInfo_Name file)) = None
      /\ copies_succeed source path files' (h ++ [copy_event source path file])%list
  end.

(** [copyImagesDir(source, destination)]. *)
Definition copyImagesDir (source destination : string) : IO (option error) :=
  let path := filepath_Join destination "images" in
  err <- os_Mkdir path ;;
  match err with
  | Some e =>
      ret (Some (Errorf ("error creating images directory at " ++ path ++ ": " ++ Error e)))
  | None =>
      files <- ReadDir_now source ;;
      match files with
      | inr e => ret (Some (Errorf ("error reading directory " ++ path ++ ": " ++ Error e)))
      | inl files => copy_files source path files
      end
  end.

Definition generating (title : string) : string :=
  String tab ("Generating Post: " ++ title ++ "..." ++ String nl EmptyString).

Definition finished (title : string) : string :=
  String tab ("Finished generating Post: " ++ title ++ "..." ++ String nl EmptyString).

(** The body of [Generate] once [post] and [post.Meta] are known not to be
    nil. *)
Definition generate_post (post : Post) (meta : Meta) (destination : string) (t : Template)
  : IO (option error) :=
  fmt_Printf (generating (Title meta)) ;;;
  let staticPath := filepath_Join destination (Post_Name post) in
  err <- os_Mkdir staticPath ;;
  match err with
  | Some e =>
      ret (Some (Errorf ("error creating directory at " ++ staticPath ++ ": " ++ Error e)))
  | None =>
      err <- (if String.eqb (Post_ImagesDir post) EmptyString then ret None
              else copyImagesDir (Post_ImagesDir post) staticPath) ;;
      match err with
      | Some e => ret (Some e)
      | None =>
          err <- Writer_WriteIndexHTML staticPath (Title meta) (Short meta)
                                       (Post_HTML post) t ;;
          match err with
          | Some e => ret (Some e)
          | None =>
              fmt_Printf (finished (Title meta)) ;;;
              ret None
          end
      end
  end.

(** [(g *PostGenerator) Generate()].  [None] is a run-time panic: a nil
    [Config], [Post] or [Meta] is dereferenced while the arguments of the
    first [Printf] are evaluated, before any call is made. *)
Definition Generate (g : PostGenerator Template) (h : list (Event Template))
  : option (option error * list (Event Template)) :=
  match Config g with
  | None => None
  | Some config =>
      match Config_Post config with
      | None => None
      | Some post =>
          match Post_Meta post with
          | None => None
          | Some meta =>
              Some (generate_post post meta (Config_Destination config)
                                  (Config_Template config) h)
          end
      end
  end.

End Output.

(** *** An environment for the examples *)

Module SampleOutput.

(** A template is known by its name. *)
Definition Template : Type := string.

(** Creating a directory fails where the name is [site/taken]. *)
Definition mkdir_result (h : list (Event Template)) (name : string) : option error :=
  if String.eqb name "site/taken" then Some (PathError "mkdir" name EACCES) else None.

(** The source images directory, with a nested directory in it. *)
Definition readdir_result (h : list (Event Template)) (dirname : string)
  : list FileInfo + error :=
  if String.eqb dirname "blog/hello/images"
  then inl [mkFileInfo "a.png" false; mkFileInfo "b.png" false; mkFileInfo "raw" true]
  else inr (PathError "open" dirname ENOENT).

(** Copying fails on the entry [b.png]. *)
Definition copy_result (h : list (Event Template)) (src dst : string) : option error :=
  if String.eqb src "blog/hello/images/b.png"
  then Some (Errorf ("error copying " ++ src)) else None.

(** Copying never fails. *)
Definition copy_ok (h : list (Event Template)) (src dst : string) : option error := None.

Definition write_result (h : list (Event Template)) (path title short html : string)
                        (t : Template) : option error := None.

Definition post_with_images : Post :=
  mkPost "hello" "<p>Hi</p>" (Some (mkMeta "Hello" "A greeting" "2023-05-01" zeroTime))
         "blog/hello/images" ["a.png"; "b.png"; "raw"].

Definition post_without_images : Post :=
  mkPost "hello" "<p>Hi</p>" (Some (mkMeta "Hello" "A greeting" "2023-05-01" zeroTime))
         EmptyString [].

End SampleOutput.

(** *** A post directory for the examples *)

Module SamplePost.

(** The body of a post: one fenced code block. *)
Definition body : string :=
  "```go" ++ String nl ("x := 1" ++ String nl ("```" ++ String nl EmptyString)).

(** What the markdown renderer makes of it. *)
Definition body_html : string :=
  "<pre><code class=" ++ dq ++ "language-go" ++ dq ++ ">x := 1"
  ++ String nl ("</code></pre>" ++ String nl EmptyString).

(** [blackfriday.MarkdownCommon] at that body, which is all it is applied
    to here. *)
Definition blackfriday_MarkdownCommon (input : string) : string :=
  if String.eqb input body then body_html else EmptyString.

(** [html.Parse] at that HTML: the block and the line feed after it under
    [body]. *)
Definition html_Parse (input : string) : Node + error :=
  if String.eqb input body_html
  then inl (Sample.document
              [ElementNode "pre" []
                 [ElementNode "code" [("class", "language-go")]
                    [TextNode ("x := 1" ++ String nl EmptyString)]];
               TextNode (String nl EmptyString)])
  else inr (lib_error "html: not an input of the examples").

(** [post.md] of the directory [blog/hello]; reading it fails with an I/O
    error once its bytes are delivered. *)
Definition os_Open (name : string) : option File * option error :=
  if String.eqb name "blog/hello/post.md"
  then (Some (mkFile (fenced EmptyString Sample.header_lines EmptyString body)
                     (PathError "read" name EIO)), None)
  else (None, Some (PathError "open" name ENOENT)).

(** A stream that fails in the middle of the header. *)
Definition failing_header : Reader :=
  mkReader ("---" ++ String nl ("title: Hello" ++ String nl "sho"))
           (PathError "read" "blog/hello/post.md" EIO).

End SamplePost.

(** A result of [getMeta] without the parsed date. *)
Definition forget_ParsedDate (r : option (option Meta * option error * Reader))
  : option (option Meta * option error * Reader) :=
  match r with
  | Some (Some m, e, br) => Some (Some (with_ParsedDate m zeroTime), e, br)
  | other => other
  end.

(** ** The generator *)

(** [ioutil.ReadAll(buf)] on a [*bytes.Buffer]: its contents, no error. *)
Definition Buffer_ReadAll (buf : string) : string * option error := (buf, None).

(** A tokenizer with its error taken away. *)
Definition without_error (AsHTML : string -> string * option error) (src : string)
  : string * option error :=
  (fst (AsHTML src), None).

(** The four errors of [getMeta], by the [fmt.Errorf] call that builds them. *)
Definition errReadString (e : error) : error := Errorf ("error ReadString: " ++ Error e).
Definition errNoFence : error := Errorf ("error in can not find " ++ dq ++ "---" ++ dq).
Definition errReadAll (e : option error) : error := Errorf ("error ReadAll: " ++ fmt_v e).
Definition errYaml (e : error) : error := Errorf ("error reading yml: " ++ Error e).

(** The error taxonomy of section 7 of the specification, on the errors
    that [getMeta] builds. *)
Inductive ErrorKind := IOError | MalformedHeader | InvalidMetadata.

Inductive getMeta_kind : error -> ErrorKind -> Prop :=
| kind_ReadString e : getMeta_kind (errReadString e) IOError
| kind_NoFence : getMeta_kind errNoFence MalformedHeader
| kind_ReadAll e : getMeta_kind (errReadAll e) InvalidMetadata
| kind_Yaml e : getMeta_kind (errYaml e) InvalidMetadata.

Section Generator.

Variable yaml_Unmarshal : string -> Meta -> Meta * option error.
Variable time_Parse : string -> string -> Time * option error.
Variable blackfriday_MarkdownCommon : string -> string.
Variable syntaxhighlight_AsHTML : string -> string * option error.
Variable html_Parse : string -> Node + error.
Variable html_ParseFragment : string -> Node -> list Node.
Variable html_Render : Node -> string * option error.
Variable os_Open : string -> option File * option error.
Variable ioutil_ReadDir : string -> list FileInfo + error.
Variable filepath_Join : string -> string -> string.
Variable filepath_Base : string -> string.

(** The [for] loop of [getMeta] that reads the header.  The loop has no
    bound of its own: [fuel] counts the iterations allowed, and [None] says
    that they did not suffice.  A finished loop gives the error to return,
    if any, the buffer and the reader. *)
Fixpoint readHeader (fuel : nat) (br : Reader) (buf : string)
  : option (option error * string * Reader) :=
  match fuel with
  | O => None
  | S fuel' =>
      let '(line, err, br') := ReadString br in
      let rest :=
        (* end of header *)
        if HasPrefix line "---" then Some (None, buf, br')
        else readHeader fuel' br' (buf ++ line) in
      match err with
      | Some e => if is_EOF e then rest else Some (Some (errReadString e), buf, br')
      | None => rest
      end
  end.

(** [getMeta(br, dateFormat)], with the reader as it is left. *)
Definition getMeta (fuel : nat) (br : Reader) (dateFormat : string)
  : option (option Meta * option error * Reader) :=
  (* read first line *)
  let '(line, err, br) := ReadString br in
  match err with
  | Some e => Some (None, Some (errReadString e), br)
  | None =>
      (* start with --- *)
      if negb (HasPrefix line "---") then Some (None, Some errNoFence, br)
      else
        (* read header *)
        match readHeader fuel br EmptyString with
        | None => None
        | Some (Some e, _, br) => Some (None, Some e, br)
        | Some (None, buf, br) =>
            let '(h, err) := Buffer_ReadAll buf in
            if (match err with Some _ => true | None => false end)
               || (String.length h <? 3)%nat
            then Some (None, Some (errReadAll err), br)
            else
              let meta := zeroMeta in
              let '(meta, err) := yaml_Unmarshal h meta in
              match err with
              | Some e => Some (None, Some (errYaml e), br)
              | None =>
                  let '(parsedDate, err) := time_Parse dateFormat (Date meta) in
                  (* if err != nil { } : the body is a comment *)
                  let meta := with_ParsedDate meta parsedDate in
                  Some (Some meta, None, br)
              end
        end
  end.

(** The function passed to [Each]: the element's children are replaced by
    the parse of what the tokenizer returned; its error is dropped. *)
Definition highlight_code (s : Node) : Node :=
  match s with
  | ElementNode tag attr children =>
      let oldCode := Text s in
      let '(formatted, _) := syntaxhighlight_AsHTML oldCode in
      ElementNode tag attr (html_ParseFragment formatted s)
  | _ => s
  end.

(** [doc.Find(...).Each(...)] as it leaves the tree.  The selection is
    fixed before [Each] runs and is visited in document order, so a selected
    element is rewritten from its original subtree before any selected
    element inside it; [SetHtml] then detaches that subtree, and what [Each]
    does to the detached elements later does not show in the document. *)
Fixpoint Each_code (n : Node) : Node :=
  if is_code_part n then highlight_code n
  else match n with
       | ElementNode tag attr children => ElementNode tag attr (map Each_code children)
       | DocumentNode children => DocumentNode (map Each_code children)
       | _ => n
       end.

(** The loop of [Selection.Html]: the children are rendered one after the
    other into a buffer; the first error ends it with an empty string. *)
Fixpoint render_children (cs : list Node) (buf : string) : string * option error :=
  match cs with
  | [] => (buf, None)
  | c :: cs' =>
      let '(out, e) := html_Render c in
      match e with
      | Some e' => (EmptyString, Some e')
      | None => render_children cs' (buf ++ out)
      end
  end.

(** [doc.Html()]. *)
Definition Html (doc : Node) : string * option error :=
  render_children (Children doc) EmptyString.

Definition html_open : string := "<html><head></head><body>".
Definition html_close : string := "</body></html>".

(** [replaceCodeParts(htmlFile)]. *)
Definition replaceCodeParts (htmlFile : string) : string * option error :=
  match html_Parse htmlFile with
  | inr err => (EmptyString, Some (Errorf ("error while parsing html: " ++ Error err)))
  | inl doc =>
      (* find code-parts via css selector and replace them with highlighted versions *)
      let doc := Each_code doc in
      let '(new, err) := Html doc in
      match err with
      | Some e => (EmptyString, Some (Errorf ("error while generating html: " ++ Error e)))
      | None =>
          (* replace unnecessarily added html tags *)
          let new := RemoveFirst new html_open in
          let new := RemoveFirst new html_close in
          (new, None)
      end
  end.

(** [getHTML(br)]: the error of [ReadAll] is assigned to [_]. *)
Definition getHTML (br : Reader) : string * option error * Reader :=
  let '(input, _, br) := ReadAll br in
  let html := blackfriday_MarkdownCommon input in
  let '(replaced, err) := replaceCodeParts html in
  match err with
  | Some e => (EmptyString, Some (Errorf ("error during syntax highlighting : " ++ Error e)), br)
  | None => (replaced, None, br)
  end.

(** [getImages(path)]. *)
Definition getImages (path : string) : string * list string * option error :=
  let dirPath := filepath_Join path "images" in
  match ioutil_ReadDir dirPath with
  | inr err =>
      if os_IsNotExist err then (EmptyString, [], None)
      else (EmptyString, [],
            Some (Errorf ("error while reading folder " ++ dirPath ++ ": " ++ Error err)))
  | inl files =>
      let images := fold_left (fun images file => (images ++ [FileInfo_Name file])%list) files [] in
      (dirPath, images, None)
  end.

(** [newPost(path, dateFormat)].  The error of [os.Open] is assigned to
    [err] and overwritten by the next assignment without having been read;
    [file] goes to [bufio.NewReader] as it is. *)
Definition newPost (fuel : nat) (path dateFormat : string)
  : option (option Post * option error) :=
  let filePath := filepath_Join path "post.md" in
  let '(file, err) := os_Open filePath in
  let br := bufio_NewReader file in
  match getMeta fuel br dateFormat with
  | None => None
  | Some (meta, err, br) =>
      match err with
      | Some e =>
          Some (None, Some (Errorf ("error parsing meta in " ++ filePath ++ ":" ++ Error e)))
      | None =>
          let '(html, err, br) := getHTML br in
          match err with
          | Some e => Some (None, Some e)
          | None =>
              let '(imagesDir, images, err) := getImages path in
              match err with
              | Some e => Some (None, Some e)
              | None =>
                  let name := filepath_Base path in
                  Some (Some (mkPost name html meta imagesDir images), None)
              end
          end
      end
  end.

(** ** Byte strings: lemmas *)

Lemma append_nil_r (s : string) : s ++ EmptyString = s.
Proof. induction s as [|c s IH]; simpl; [reflexivity | now rewrite IH]. Qed.

Lemma append_assoc (a b c : string) : (a ++ b) ++ c = a ++ (b ++ c).
Proof. induction a as [|x a IH]; simpl; [reflexivity | now rewrite IH]. Qed.

Lemma length_append (a b : string) :
  String.length (a ++ b) = String.length a + String.length b.
Proof. induction a as [|x a IH]; simpl; [reflexivity | now rewrite IH]. Qed.

Lemma HasPrefix_append (p s : string) : HasPrefix (p ++ s) p = true.
Proof.
  induction p as [|c p IH]; simpl; [reflexivity |].
  now rewrite Ascii.eqb_refl, IH.
Qed.

Lemma skip_append (p s : string) : skip (String.length p) (p ++ s) = s.
Proof. induction p as [|c p IH]; simpl; [reflexivity | exact IH]. Qed.

Lemma cut_line_no_nl (s : string) : no_nl s = true -> cut_line s = None.
Proof.
  induction s as [|c s IH]; simpl; [reflexivity |].
  intros H. apply andb_prop in H. destruct H as [Hc Hs].
  apply negb_true_iff in Hc. now rewrite Hc, (IH Hs).
Qed.

Lemma cut_line_first (l r : string) :
  no_nl l = true ->
  cut_line (l ++ String nl r) = Some (l ++ String nl EmptyString, r).
Proof.
  induction l as [|c l IH]; simpl.
  - intros _. reflexivity.
  - intros H. apply andb_prop in H. destruct H as [Hc Hl].
    apply negb_true_iff in Hc. now rewrite Hc, (IH Hl).
Qed.

(** A line that starts with the fence still does so when bytes follow it. *)
Lemma HasPrefix_fence (y s : string) : HasPrefix ("---" ++ y ++ s) "---" = true.
Proof. reflexivity. Qed.

(** ** Streams: lemmas *)

Lemma ReadString_line (l r : string) (fin : error) :
  no_nl l = true ->
  ReadString (mkReader (l ++ String nl r) fin)
  = (l ++ String nl EmptyString, None, mkReader r fin).
Proof. intros H. unfold ReadString. simpl. now rewrite (cut_line_first l r H). Qed.

Lemma ReadString_end (s : string) (fin : error) :
  no_nl s = true ->
  ReadString (mkReader s fin) = (s, Some fin, mkReader EmptyString fin).
Proof. intros H. unfold ReadString. simpl. now rewrite (cut_line_no_nl s H). Qed.

(** ** The header loop *)

(** One iteration on a stream that starts with a header line. *)
Lemma readHeader_step (fuel : nat) (l r buf : string) (fin : error) :
  header_line l ->
  readHeader (S fuel) (mkReader (l ++ String nl r) fin) buf
  = readHeader fuel (mkReader r fin) (buf ++ l ++ String nl EmptyString).
Proof.
  intros [Hl Hp]. cbn [readHeader]. rewrite (ReadString_line l r fin Hl).
  cbv beta iota zeta. now rewrite Hp.
Qed.

(** The loop runs through the header lines, one iteration each. *)
Lemma readHeader_lines (ls : list string) :
  Forall header_line ls ->
  forall (fuel : nat) (r buf : string) (fin : error),
    readHeader (List.length ls + fuel) (mkReader (unlines ls ++ r) fin) buf
    = readHeader fuel (mkReader r fin) (buf ++ unlines ls).
Proof.
  induction 1 as [|l ls Hl Hls IH]; intros fuel r buf fin.
  - simpl. now rewrite append_nil_r.
  - cbn [List.length unlines Nat.add].
    rewrite append_assoc. cbn [append].
    rewrite (readHeader_step _ l _ buf fin Hl), IH.
    now rewrite !append_assoc.
Qed.

(** The loop ends at a closing fence that is a whole line. *)
Lemma readHeader_fence (fuel : nat) (y body buf : string) (fin : error) :
  no_nl y = true ->
  readHeader (S fuel) (mkReader ("---" ++ y ++ String nl body) fin) buf
  = Some (None, buf, mkReader body fin).
Proof.
  intros Hy.
  assert (Hl : no_nl ("---" ++ y) = true) by exact Hy.
  change ("---" ++ y ++ String nl body) with (("---" ++ y) ++ String nl body).
  cbn [readHeader]. rewrite (ReadString_line _ body fin Hl). reflexivity.
Qed.

(** The loop also ends at a fence that the end of the stream cuts short. *)
Lemma readHeader_fence_at_end (fuel : nat) (y buf : string) :
  no_nl y = true ->
  readHeader (S fuel) (mkReader ("---" ++ y) io_EOF) buf
  = Some (None, buf, mkReader EmptyString io_EOF).
Proof.
  intros Hy.
  assert (Hl : no_nl ("---" ++ y) = true) by exact Hy.
  cbn [readHeader]. rewrite (ReadString_end _ io_EOF Hl). reflexivity.
Qed.

(** At the end of the stream every iteration reads the empty string with
    [io.EOF], finds no fence in it and goes round again. *)
Lemma readHeader_at_EOF (fuel : nat) :
  forall buf : string, readHeader fuel (mkReader EmptyString io_EOF) buf = None.
Proof.
  induction fuel as [|fuel IH]; intros buf; [reflexivity |].
  cbn. apply IH.
Qed.

(** A last line that is cut short and is no fence is accumulated; the loop
    is then at the end of the stream. *)
Lemma readHeader_unclosed (ls : list string) (last : string) :
  Forall header_line ls -> no_nl last = true -> HasPrefix last "---" = false ->
  forall (fuel : nat) (buf : string),
    readHeader fuel (mkReader (unlines ls ++ last) io_EOF) buf = None.
Proof.
  intros Hls Hlast Hp fuel buf.
  destruct (Nat.le_gt_cases fuel (List.length ls)) as [Hle | Hgt].
  - clear Hlast Hp. revert fuel buf Hle.
    induction Hls as [|l ls Hl Hls IH]; intros fuel buf Hle.
    + destruct fuel; [reflexivity | simpl in Hle; lia].
    + destruct fuel as [|fuel]; [reflexivity |].
      cbn [unlines]. rewrite append_assoc. cbn [append].
      rewrite (readHeader_step _ l _ buf io_EOF Hl).
      apply IH. simpl in Hle. lia.
  - replace fuel with (List.length ls + (fuel - List.length ls)) by lia.
    rewrite (readHeader_lines ls Hls).
    destruct (fuel - List.length ls) as [|k] eqn:Hk; [lia |].
    cbn [readHeader]. rewrite (ReadString_end last io_EOF Hlast).
    cbn [is_EOF]. rewrite Hp. apply readHeader_at_EOF.
Qed.

(** A read error other than [io.EOF] ends the loop with that error. *)
Lemma readHeader_read_error (ls : list string) (last : string) (fin : error) :
  Forall header_line ls -> no_nl last = true -> is_EOF fin = false ->
  forall (fuel : nat) (buf : string),
    List.length ls < fuel ->
    readHeader fuel (mkReader (unlines ls ++ last) fin) buf
    = Some (Some (errReadString fin), (buf ++ unlines ls), mkReader EmptyString fin).
Proof.
  intros Hls Hlast Hfin fuel buf Hlt.
  replace fuel with (List.length ls + (fuel - List.length ls)) by lia.
  rewrite (readHeader_lines ls Hls).
  destruct (fuel - List.length ls) as [|k] eqn:Hk; [lia |].
  cbn [readHeader]. rewrite (ReadString_end last fin Hlast). now rewrite Hfin.
Qed.

(** More fuel does not change the result of a loop that has ended. *)
Lemma readHeader_more_fuel (fuel : nat) :
  forall (br : Reader) (buf : string) r,
    readHeader fuel br buf = Some r ->
    forall k : nat, readHeader (fuel + k) br buf = Some r.
Proof.
  induction fuel as [|fuel IH]; intros br buf r Hr k; [discriminate |].
  cbn [Nat.add]. cbn [readHeader] in Hr |- *.
  destruct (ReadString br) as [[line err] br'].
  destruct (HasPrefix line "---").
  - exact Hr.
  - destruct err as [e|].
    + destruct (is_EOF e); [now apply IH | exact Hr].
    + now apply IH.
Qed.

(** ** [getMeta] *)

(** The first read and the loop on a fenced document. *)
Lemma getMeta_reads_fenced (x y body : string) (ls : list string) (fin : error)
      (fuel : nat) :
  no_nl x = true -> no_nl y = true -> Forall header_line ls ->
  List.length ls < fuel ->
  exists line br1,
    ReadString (mkReader (fenced x ls y body) fin) = (line, None, br1)
    /\ HasPrefix line "---" = true
    /\ readHeader fuel br1 EmptyString = Some (None, unlines ls, mkReader body fin).
Proof.
  intros Hx Hy Hls Hfuel.
  assert (Hl : no_nl ("---" ++ x) = true) by exact Hx.
  exists (("---" ++ x) ++ String nl EmptyString), (mkReader (unlines ls ++ "---" ++ y ++ String nl body) fin).
  split; [| split].
  - unfold fenced. change ("---" ++ x ++ String nl ?r) with (("---" ++ x) ++ String nl r).
    apply (ReadString_line _ _ fin Hl).
  - reflexivity.
  - replace fuel with (List.length ls + S (fuel - S (List.length ls))) by lia.
    rewrite (readHeader_lines ls Hls).
    apply (readHeader_fence _ y body _ fin Hy).
Qed.

(** C1: on a well-formed header block (an opening fence line, header lines
    of at least 3 bytes that decode, a closing fence line) [getMeta], given
    more iterations than there are header lines, returns a Meta whose title,
    short and date are those decoded from exactly the bytes between the
    fences, with no error, and leaves the reader at the first byte of the
    body, which is what the renderer then reads. *)
Theorem getMeta_well_formed_header
        (x y body : string) (ls : list string) (fin : error)
        (dateFormat : string) (m : Meta) (fuel : nat) :
  no_nl x = true -> no_nl y = true -> Forall header_line ls ->
  3 <= String.length (unlines ls) ->
  yaml_Unmarshal (unlines ls) zeroMeta = (m, None) ->
  List.length ls < fuel ->
  exists meta : Meta,
    getMeta fuel (mkReader (fenced x ls y body) fin) dateFormat
    = Some (Some meta, None, mkReader body fin)
    /\ Title meta = Title m /\ Short meta = Short m /\ Date meta = Date m
    /\ ParsedDate meta = fst (time_Parse dateFormat (Date m))
    /\ fst (fst (ReadAll (mkReader body fin))) = body.
Proof.
  intros Hx Hy Hls Hlen Hyaml Hfuel.
  destruct (getMeta_reads_fenced x y body ls fin fuel Hx Hy Hls Hfuel)
    as (line & br1 & Hread & Hfence & Hloop).
  exists (with_ParsedDate m (fst (time_Parse dateFormat (Date m)))).
  split; [| repeat split].
  unfold getMeta. rewrite Hread, Hfence. cbn [negb]. rewrite Hloop.
  cbn [Buffer_ReadAll orb].
  apply Nat.ltb_ge in Hlen. rewrite Hlen, Hyaml.
  now destruct (time_Parse dateFormat (Date m)).
Qed.

(** The same when the end of the stream cuts the closing fence line short:
    the header is returned and the reader is at the end, the body empty. *)
Lemma getMeta_well_formed_header_at_end
      (x y : string) (ls : list string) (dateFormat : string) (m : Meta) (fuel : nat) :
  no_nl x = true -> no_nl y = true -> Forall header_line ls ->
  3 <= String.length (unlines ls) ->
  yaml_Unmarshal (unlines ls) zeroMeta = (m, None) ->
  List.length ls < fuel ->
  getMeta fuel (mkReader ("---" ++ x ++ String nl (unlines ls ++ "---" ++ y)) io_EOF)
          dateFormat
  = Some (Some (with_ParsedDate m (fst (time_Parse dateFormat (Date m)))), None,
          mkReader EmptyString io_EOF).
Proof.
  intros Hx Hy Hls Hlen Hyaml Hfuel.
  assert (Hl : no_nl ("---" ++ x) = true) by exact Hx.
  unfold getMeta.
  change ("---" ++ x ++ String nl ?r) with (("---" ++ x) ++ String nl r).
  rewrite (ReadString_line _ _ io_EOF Hl).
  cbn [HasPrefix append Ascii.eqb Bool.eqb andb negb].
  replace fuel with (List.length ls + S (fuel - S (List.length ls))) by lia.
  rewrite (readHeader_lines ls Hls), (readHeader_fence_at_end _ y _ Hy).
  change (EmptyString ++ unlines ls) with (unlines ls).
  cbn [Buffer_ReadAll orb].
  apply Nat.ltb_ge in Hlen. rewrite Hlen, Hyaml.
  now destruct (time_Parse dateFormat (Date m)).
Qed.

(** A stream that opens a header and ends without a closing fence: the loop
    of [getMeta] does not end, whatever the number of iterations. *)
Lemma getMeta_unclosed_header
      (x last : string) (ls : list string) (dateFormat : string) :
  no_nl x = true -> Forall header_line ls ->
  no_nl last = true -> HasPrefix last "---" = false ->
  forall fuel : nat,
    getMeta fuel (mkReader ("---" ++ x ++ String nl (unlines ls ++ last)) io_EOF) dateFormat
    = None.
Proof.
  intros Hx Hls Hlast Hp fuel.
  assert (Hl : no_nl ("---" ++ x) = true) by exact Hx.
  unfold getMeta.
  change ("---" ++ x ++ String nl ?r) with (("---" ++ x) ++ String nl r).
  rewrite (ReadString_line _ _ io_EOF Hl).
  cbn [HasPrefix append Ascii.eqb Bool.eqb andb negb].
  now rewrite (readHeader_unclosed ls last Hls Hlast Hp).
Qed.

(** C2: on the stream of an opening fence line and one header line, which
    ends before any closing fence, [getMeta] returns nothing within any
    number of iterations of its loop: it does not terminate. *)
Theorem getMeta_unclosed_header_never_returns :
  forall (fuel : nat) (dateFormat : string),
    getMeta fuel
            (mkReader ("---" ++ String nl ("title: x" ++ String nl EmptyString)) io_EOF)
            dateFormat
    = None.
Proof.
  intros fuel dateFormat.
  apply (getMeta_unclosed_header EmptyString EmptyString ["title: x"] dateFormat);
    try reflexivity.
  constructor; [split; reflexivity | constructor].
Qed.

(** C7, as the code has it: when the first line read does not begin with
    the fence, [getMeta] returns no Meta and an error, whatever the fuel.
    The error is the missing-fence error when the line was read up to its
    line feed, and the read error when the stream ended or failed before
    one. *)
Theorem getMeta_no_opening_fence
        (fuel : nat) (br : Reader) (dateFormat : string)
        (line : string) (err : option error) (br' : Reader) :
  ReadString br = (line, err, br') ->
  HasPrefix line "---" = false ->
  exists e : error,
    getMeta fuel br dateFormat = Some (None, Some e, br')
    /\ e = match err with None => errNoFence | Some e' => errReadString e' end
    /\ getMeta_kind e match err with None => MalformedHeader | Some _ => IOError end.
Proof.
  intros Hread Hp. unfold getMeta. rewrite Hread.
  destruct err as [e'|].
  - exists (errReadString e'). repeat split. constructor.
  - exists errNoFence. rewrite Hp. repeat split. constructor.
Qed.

(** After an opening fence, when the loop has ended and the header that it
    accumulated is shorter than 3 bytes or does not decode, [getMeta]
    returns no Meta and an error of the kind InvalidMetadata. *)
Lemma getMeta_invalid_metadata
        (fuel : nat) (br : Reader) (dateFormat : string)
        (line h : string) (br1 br2 : Reader) :
  ReadString br = (line, None, br1) ->
  HasPrefix line "---" = true ->
  readHeader fuel br1 EmptyString = Some (None, h, br2) ->
  (String.length h < 3 \/ exists e, snd (yaml_Unmarshal h zeroMeta) = Some e) ->
  exists e : error,
    getMeta fuel br dateFormat = Some (None, Some e, br2)
    /\ getMeta_kind e InvalidMetadata.
Proof.
  intros Hread Hfence Hloop Hbad.
  unfold getMeta. rewrite Hread, Hfence. cbn [negb]. rewrite Hloop.
  cbn [Buffer_ReadAll orb].
  destruct (String.length h <? 3)%nat eqn:Hlen.
  - exists (errReadAll None). split; [reflexivity | constructor].
  - destruct Hbad as [Hshort | [e He]].
    + apply Nat.ltb_ge in Hlen. lia.
    + destruct (yaml_Unmarshal h zeroMeta) as [meta err]. cbn in He. subst err.
      exists (errYaml e). split; [reflexivity | constructor].
Qed.

(** C8, as the code has it: on a stream with an opening fence line whose
    header lines are closed by a fence, either a whole fence line before
    the body or a fence that the end of the stream cuts short, when the
    accumulated header is shorter than 3 bytes or does not decode,
    [getMeta], given more iterations than there are header lines, returns
    no Meta and an error of the kind InvalidMetadata, and leaves the reader
    after the closing fence. *)
Theorem getMeta_closed_header_invalid_metadata
        (x y tail body : string) (ls : list string) (fin : error)
        (dateFormat : string) (fuel : nat) :
  no_nl x = true -> no_nl y = true -> Forall header_line ls ->
  (tail = String nl body
   \/ (tail = EmptyString /\ body = EmptyString /\ fin = io_EOF)) ->
  (String.length (unlines ls) < 3
   \/ exists e, snd (yaml_Unmarshal (unlines ls) zeroMeta) = Some e) ->
  List.length ls < fuel ->
  exists e : error,
    getMeta fuel
            (mkReader ("---" ++ x ++ String nl (unlines ls ++ "---" ++ y ++ tail)) fin)
            dateFormat
    = Some (None, Some e, mkReader body fin)
    /\ getMeta_kind e InvalidMetadata.
Proof.
  intros Hx Hy Hls Htail Hbad Hfuel.
  assert (Hl : no_nl ("---" ++ x) = true) by exact Hx.
  destruct Htail as [-> | (-> & -> & ->)].
  - destruct (getMeta_reads_fenced x y body ls fin fuel Hx Hy Hls Hfuel)
      as (line & br1 & Hread & Hfence & Hloop).
    exact (getMeta_invalid_metadata fuel _ dateFormat line (unlines ls) br1 _
                                    Hread Hfence Hloop Hbad).
  - apply (getMeta_invalid_metadata
             fuel _ dateFormat (("---" ++ x) ++ String nl EmptyString) (unlines ls)
             (mkReader (unlines ls ++ "---" ++ y) io_EOF) _).
    + change ("---" ++ x ++ String nl ?r) with (("---" ++ x) ++ String nl r).
      rewrite append_nil_r. apply (ReadString_line _ _ io_EOF Hl).
    + reflexivity.
    + replace fuel with (List.length ls + S (fuel - S (List.length ls))) by lia.
      rewrite (readHeader_lines ls Hls). apply (readHeader_fence_at_end _ y _ Hy).
    + exact Hbad.
Qed.


(** ** [replaceCodeParts] *)

Lemma RemoveFirst_unfold (s old : string) :
  RemoveFirst s old
  = if HasPrefix s old then skip (String.length old) s
    else match s with
         | EmptyString => EmptyString
         | String c s' => String c (RemoveFirst s' old)
         end.
Proof. destruct s; reflexivity. Qed.

Lemma Contains_unfold (s sep : string) :
  Contains s sep
  = HasPrefix s sep || match s with
                       | EmptyString => false
                       | String _ s' => Contains s' sep
                       end.
Proof. destruct s; reflexivity. Qed.

(** An occurrence at the very start is the first one. *)
Lemma RemoveFirst_at_start (old s : string) : RemoveFirst (old ++ s) old = s.
Proof.
  rewrite RemoveFirst_unfold, HasPrefix_append. apply skip_append.
Qed.

Ltac peel_byte H s :=
  destruct s as [|? s];
  [ try (left; reflexivity); cbn in H; discriminate H
  | cbn [append HasPrefix] in H; apply andb_prop in H;
    let Hc := fresh "Hc" in
    destruct H as [Hc H]; apply Ascii.eqb_eq in Hc; subst ].

(** The closing wrapper does not overlap itself: when it starts inside [s]
    in [s ++ html_close], it lies within [s]. *)
Lemma html_close_no_overlap (s : string) :
  HasPrefix (s ++ html_close) html_close = true ->
  s = EmptyString \/ HasPrefix s html_close = true.
Proof.
  intros H. unfold html_close in H at 2.
  do 14 peel_byte H s.
  right. reflexivity.
Qed.

(** Where the closing wrapper occurs only at the end, it is the one that
    is removed. *)
Lemma RemoveFirst_html_close (inner : string) :
  Contains inner html_close = false ->
  RemoveFirst (inner ++ html_close) html_close = inner.
Proof.
  induction inner as [|c inner IH]; intros Hc; [reflexivity |].
  rewrite Contains_unfold in Hc. apply orb_false_iff in Hc. destruct Hc as [Hp Hc].
  rewrite RemoveFirst_unfold.
  destruct (HasPrefix (String c inner ++ html_close) html_close) eqn:Hq.
  - destruct (html_close_no_overlap _ Hq) as [He | Ht]; [discriminate | congruence].
  - cbn [append]. now rewrite (IH Hc).
Qed.

(** C6, as the code has it: when the serialized document is the opening
    wrapper, the content [inner] and the closing wrapper, and [inner] does
    not contain the closing wrapper, [replaceCodeParts] returns exactly
    [inner]: both wrapper strings are gone and nothing else is touched. *)
Theorem replaceCodeParts_strips_wrapper
        (htmlFile inner : string) (doc : Node) :
  html_Parse htmlFile = inl doc ->
  Html (Each_code doc) = (html_open ++ inner ++ html_close, None) ->
  Contains inner html_close = false ->
  replaceCodeParts htmlFile = (inner, None).
Proof.
  intros Hparse Hhtml Hinner.
  unfold replaceCodeParts. rewrite Hparse, Hhtml.
  rewrite RemoveFirst_at_start. now rewrite (RemoveFirst_html_close inner Hinner).
Qed.

(** The function given to [Each] on a selected element. *)
Lemma Each_code_selected (n : Node) :
  is_code_part n = true -> Each_code n = highlight_code n.
Proof. intros H. destruct n; cbn [Each_code]; now rewrite H. Qed.

(** ** [getImages] *)

Lemma fold_left_append_names (files : list FileInfo) :
  forall images : list string,
    fold_left (fun images file => (images ++ [FileInfo_Name file])%list) files images
    = (images ++ map FileInfo_Name files)%list.
Proof.
  induction files as [|f files IH]; intros images; cbn [fold_left map].
  - now rewrite app_nil_r.
  - rewrite IH, <- app_assoc. reflexivity.
Qed.

(** C5: when the [images] directory of a post is read, [getImages] returns
    its path and the names of all entries of the listing, directories
    included, in the order of the listing, with no error. *)
Theorem getImages_listing_order (path : string) (files : list FileInfo) :
  ioutil_ReadDir (filepath_Join path "images") = inl files ->
  getImages path = (filepath_Join path "images", map FileInfo_Name files, None).
Proof.
  intros Hdir. unfold getImages. rewrite Hdir.
  now rewrite fold_left_append_names.
Qed.

(** ** [newPost] *)

(** A nil file fails the first read of [getMeta]. *)
Lemma getMeta_nil_file (fuel : nat) (dateFormat : string) :
  getMeta fuel (bufio_NewReader None) dateFormat
  = Some (None, Some (errReadString os_ErrInvalid), mkReader EmptyString os_ErrInvalid).
Proof. reflexivity. Qed.

(** When [os.Open] fails, [newPost] returns no Post and the error of the
    read from the nil file; the error of [os.Open] is not in it. *)
Lemma newPost_open_fails (fuel : nat) (path dateFormat : string) (cause : error) :
  os_Open (filepath_Join path "post.md") = (None, Some cause) ->
  newPost fuel path dateFormat
  = Some (None,
          Some (Errorf ("error parsing meta in " ++ filepath_Join path "post.md"
                        ++ ":error ReadString: invalid argument"))).
Proof.
  intros Hopen. unfold newPost. rewrite Hopen, getMeta_nil_file. reflexivity.
Qed.

(** [getHTML] does not see how the stream ends: a read error in the body
    gives the same HTML and the same error as the end of the file. *)
Lemma getHTML_drops_read_error (body : string) (fin : error) :
  fst (getHTML (mkReader body fin)) = fst (getHTML (mkReader body io_EOF)).
Proof.
  unfold getHTML, ReadAll. cbn [pending final].
  destruct (replaceCodeParts (blackfriday_MarkdownCommon body)) as [replaced [e|]];
    reflexivity.
Qed.

(** ** More of [getMeta] *)

(** A nil error of [getMeta] comes with a Meta. *)
Lemma getMeta_nil_error_has_Meta
      (fuel : nat) (br br' : Reader) (dateFormat : string) (meta : option Meta) :
  getMeta fuel br dateFormat = Some (meta, None, br') -> meta <> None.
Proof.
  unfold getMeta.
  destruct (ReadString br) as [[line e0] br0].
  destruct e0 as [e0|]; [discriminate |].
  destruct (negb (HasPrefix line "---")); [discriminate |].
  destruct (readHeader fuel br0 EmptyString) as [[[[e1|] buf] br1]|]; try discriminate.
  cbn [Buffer_ReadAll orb].
  destruct (String.length buf <? 3)%nat; [discriminate |].
  destruct (yaml_Unmarshal buf zeroMeta) as [m [e2|]]; [discriminate |].
  destruct (time_Parse dateFormat (Date m)) as [t e3].
  intros H; inversion H. discriminate.
Qed.

(** X1: whatever the stream, when [getMeta] returns it returns either a Meta
    and a nil error, or an error and a nil Meta; never both, never
    neither. *)
Theorem getMeta_meta_xor_error
        (fuel : nat) (br br' : Reader) (dateFormat : string)
        (meta : option Meta) (err : option error) :
  getMeta fuel br dateFormat = Some (meta, err, br') ->
  (meta = None /\ err <> None) \/ (meta <> None /\ err = None).
Proof.
  unfold getMeta.
  destruct (ReadString br) as [[line e0] br0].
  destruct e0 as [e0|]; [intros H; inversion H; left; split; congruence |].
  destruct (negb (HasPrefix line "---")); [intros H; inversion H; left; split; congruence |].
  destruct (readHeader fuel br0 EmptyString) as [[[[e1|] buf] br1]|];
    [intros H; inversion H; left; split; congruence | | discriminate].
  cbn [Buffer_ReadAll orb].
  destruct (String.length buf <? 3)%nat;
    [intros H; inversion H; left; split; congruence |].
  destruct (yaml_Unmarshal buf zeroMeta) as [m [e2|]];
    [intros H; inversion H; left; split; congruence |].
  destruct (time_Parse dateFormat (Date m)) as [t e3].
  intros H; inversion H; right; split; congruence.
Qed.

(** X2: a read error other than [io.EOF] inside the header, before any
    closing fence line is complete, makes [getMeta] fail with that read
    error and no Meta; this holds even when the bytes read last begin with
    the fence, which the end of the stream would have accepted. *)
Theorem getMeta_read_error_in_header
        (x last : string) (ls : list string) (fin : error)
        (dateFormat : string) (fuel : nat) :
  no_nl x = true -> Forall header_line ls -> no_nl last = true ->
  is_EOF fin = false ->
  List.length ls < fuel ->
  getMeta fuel (mkReader ("---" ++ x ++ String nl (unlines ls ++ last)) fin) dateFormat
  = Some (None, Some (errReadString fin), mkReader EmptyString fin).
Proof.
  intros Hx Hls Hlast Hfin Hfuel.
  assert (Hl : no_nl ("---" ++ x) = true) by exact Hx.
  unfold getMeta.
  change ("---" ++ x ++ String nl ?r) with (("---" ++ x) ++ String nl r).
  rewrite (ReadString_line _ _ fin Hl).
  cbn [HasPrefix append Ascii.eqb Bool.eqb andb negb].
  now rewrite (readHeader_read_error ls last fin Hls Hlast Hfin fuel EmptyString Hfuel).
Qed.

(** X3: the date format decides nothing but [ParsedDate]: with two formats
    [getMeta] returns or fails alike, with the same error, the same reader
    and the same title, summary and date. *)
Theorem getMeta_dateFormat_only_sets_ParsedDate
        (fuel : nat) (br : Reader) (format1 format2 : string) :
  forget_ParsedDate (getMeta fuel br format1)
  = forget_ParsedDate (getMeta fuel br format2).
Proof.
  unfold getMeta.
  destruct (ReadString br) as [[line e0] br0].
  destruct e0 as [e0|]; [reflexivity |].
  destruct (negb (HasPrefix line "---")); [reflexivity |].
  destruct (readHeader fuel br0 EmptyString) as [[[[e1|] buf] br1]|]; try reflexivity.
  cbn [Buffer_ReadAll orb].
  destruct (String.length buf <? 3)%nat; [reflexivity |].
  destruct (yaml_Unmarshal buf zeroMeta) as [m [e2|]]; [reflexivity |].
  destruct (time_Parse format1 (Date m)) as [t1 e3].
  destruct (time_Parse format2 (Date m)) as [t2 e4].
  reflexivity.
Qed.

(** ** More of [getImages] *)

(** X4: when the [images] directory cannot be listed, [getImages] returns no
    path and no names; that is no error when the directory does not exist,
    and otherwise an error that names the directory and wraps the cause. *)
Theorem getImages_without_listing (path : string) (e : error) :
  ioutil_ReadDir (filepath_Join path "images") = inr e ->
  getImages path
  = (EmptyString, [],
     if os_IsNotExist e then None
     else Some (Errorf ("error while reading folder " ++ filepath_Join path "images"
                        ++ ": " ++ Error e))).
Proof.
  intros Hdir. unfold getImages. rewrite Hdir. now destruct (os_IsNotExist e).
Qed.

(** ** More of [newPost] *)

(** X5: whatever the directory, when [newPost] returns it returns either a
    Post and a nil error or an error and a nil Post; a Post it returns has a
    Meta and is named after the last element of the path. *)
Theorem newPost_post_xor_error
        (fuel : nat) (path dateFormat : string)
        (post : option Post) (err : option error) :
  newPost fuel path dateFormat = Some (post, err) ->
  (post = None /\ err <> None)
  \/ (exists p : Post,
         post = Some p /\ err = None
         /\ Post_Meta p <> None /\ Post_Name p = filepath_Base path).
Proof.
  unfold newPost.
  destruct (os_Open (filepath_Join path "post.md")) as [file err0].
  destruct (getMeta fuel (bufio_NewReader file) dateFormat)
    as [[[meta [e1|]] br1]|] eqn:Hmeta;
    [intros H; inversion H; left; split; congruence | | discriminate].
  pose proof (getMeta_nil_error_has_Meta _ _ _ _ _ Hmeta) as Hm.
  destruct (getHTML br1) as [[html [e2|]] br2];
    [intros H; inversion H; left; split; congruence |].
  destruct (getImages path) as [[imagesDir images] [e3|]];
    [intros H; inversion H; left; split; congruence |].
  intros H; inversion H. right. eexists. repeat split. exact Hm.
Qed.

(** A Post that [newPost] returns has a Meta. *)
Lemma newPost_Post_has_Meta
      (fuel : nat) (path dateFormat : string) (p : Post) (err : option error) :
  newPost fuel path dateFormat = Some (Some p, err) -> Post_Meta p <> None.
Proof.
  unfold newPost.
  destruct (os_Open (filepath_Join path "post.md")) as [file err0].
  destruct (getMeta fuel (bufio_NewReader file) dateFormat)
    as [[[meta [e1|]] br1]|] eqn:Hmeta; try discriminate.
  pose proof (getMeta_nil_error_has_Meta _ _ _ _ _ Hmeta) as Hm.
  destruct (getHTML br1) as [[html [e2|]] br2]; [discriminate |].
  destruct (getImages path) as [[imagesDir images] [e3|]]; [discriminate |].
  intros H; inversion H. exact Hm.
Qed.

(** X6: every error that [newPost] returns is built at one of three
    places: the header, with the path of [post.md] in the message; the
    highlighting, with no path; the images directory, with its path. *)
Theorem newPost_errors
        (fuel : nat) (path dateFormat : string) (post : option Post) (e : error) :
  newPost fuel path dateFormat = Some (post, Some e) ->
  (exists cause : error,
      e = Errorf ("error parsing meta in " ++ filepath_Join path "post.md"
                  ++ ":" ++ Error cause))
  \/ (exists cause : error,
         e = Errorf ("error during syntax highlighting : " ++ Error cause))
  \/ (exists cause : error,
         e = Errorf ("error while reading folder " ++ filepath_Join path "images"
                     ++ ": " ++ Error cause)).
Proof.
  unfold newPost.
  destruct (os_Open (filepath_Join path "post.md")) as [file err0].
  destruct (getMeta fuel (bufio_NewReader file) dateFormat)
    as [[[meta [e1|]] br1]|]; [| | discriminate].
  { intros H; inversion H. left. now exists e1. }
  unfold getHTML.
  destruct (ReadAll br1) as [[input e0] br2].
  destruct (replaceCodeParts (blackfriday_MarkdownCommon input)) as [replaced [e2|]].
  { intros H; inversion H. right; left. now exists e2. }
  unfold getImages.
  destruct (ioutil_ReadDir (filepath_Join path "images")) as [files | e3].
  { discriminate. }
  destruct (os_IsNotExist e3); [discriminate |].
  intros H; inversion H. right; right. now exists e3.
Qed.

(** X7: on a directory whose [post.md] is a fenced header that decodes and a
    body, [newPost] returns the Post made of the parts: the name is the
    base of the path, the Meta that of the header with its parsed date, the
    HTML what [replaceCodeParts] makes of the rendered body and of nothing
    else, the images what [getImages] returns.  It does so however the
    file ends: a read error after the header is not reported. *)
Theorem newPost_assembles
        (fuel : nat) (path dateFormat : string)
        (x y body : string) (ls : list string) (fin : error) (err0 : option error)
        (m : Meta) (html imagesDir : string) (images : list string) :
  os_Open (filepath_Join path "post.md") = (Some (mkFile (fenced x ls y body) fin), err0) ->
  no_nl x = true -> no_nl y = true -> Forall header_line ls ->
  3 <= String.length (unlines ls) ->
  yaml_Unmarshal (unlines ls) zeroMeta = (m, None) ->
  replaceCodeParts (blackfriday_MarkdownCommon body) = (html, None) ->
  getImages path = (imagesDir, images, None) ->
  List.length ls < fuel ->
  newPost fuel path dateFormat
  = Some (Some (mkPost (filepath_Base path) html
                       (Some (with_ParsedDate m (fst (time_Parse dateFormat (Date m)))))
                       imagesDir images),
          None).
Proof.
  intros Hopen Hx Hy Hls Hlen Hyaml Hhtml Himages Hfuel.
  destruct (getMeta_reads_fenced x y body ls fin fuel Hx Hy Hls Hfuel)
    as (line & br1 & Hread & Hfence & Hloop).
  unfold newPost. rewrite Hopen. cbn [bufio_NewReader File_bytes File_end].
  unfold getMeta. rewrite Hread, Hfence. cbn [negb]. rewrite Hloop.
  cbn [Buffer_ReadAll orb].
  apply Nat.ltb_ge in Hlen. rewrite Hlen, Hyaml.
  destruct (time_Parse dateFormat (Date m)) as [t e]. cbn [fst].
  unfold getHTML, ReadAll. cbn [pending final].
  now rewrite Hhtml, Himages.
Qed.

(** ** More of [replaceCodeParts] *)

Lemma HasPrefix_iff (p s : string) :
  HasPrefix s p = true <-> exists b : string, s = p ++ b.
Proof.
  revert s. induction p as [|c p IH]; intros s; cbn [HasPrefix append].
  - split; [intros _; now exists s | reflexivity].
  - destruct s as [|d s].
    + split; [discriminate | intros [b Hb]; discriminate].
    + rewrite andb_true_iff, Ascii.eqb_eq, IH. split.
      * intros [Hd [b Hb]]. exists b. now subst.
      * intros [b Hb]. inversion Hb; subst. split; [reflexivity | now exists b].
Qed.

Lemma Contains_iff (sep s : string) :
  Contains s sep = true <-> exists a b : string, s = a ++ sep ++ b.
Proof.
  split.
  - induction s as [|c s IH]; rewrite Contains_unfold, orb_true_iff.
    + intros [Hp | Hf]; [| discriminate].
      apply HasPrefix_iff in Hp. destruct Hp as [b Hb]. exists EmptyString, b. exact Hb.
    + intros [Hp | Ht].
      * apply HasPrefix_iff in Hp. destruct Hp as [b Hb]. exists EmptyString, b. exact Hb.
      * destruct (IH Ht) as (a & b & Hab). exists (String c a), b. now subst.
  - intros (a & b & Hab). subst s.
    induction a as [|c a IH]; rewrite Contains_unfold, orb_true_iff.
    + left. exact (HasPrefix_append sep b).
    + right. exact IH.
Qed.

(** [is_code_part] as a proposition: an element named [code] with a
    [class] attribute in whose value [language-] occurs. *)
Lemma is_code_part_iff (n : Node) :
  is_code_part n = true
  <-> exists (attr : list (string * string)) (children : list Node) (a b : string),
        n = ElementNode "code" attr children
        /\ In ("class", a ++ "language-" ++ b) attr.
Proof.
  split.
  - destruct n as [data | data | tag attr children | children]; try discriminate.
    cbn [is_code_part]. rewrite andb_true_iff, String.eqb_eq, existsb_exists.
    intros [Htag [[k v] [Hin Hkv]]]. cbn [fst snd] in Hkv.
    apply andb_true_iff in Hkv. destruct Hkv as [Hk Hv].
    apply String.eqb_eq in Hk. apply Contains_iff in Hv. destruct Hv as (a & b & Hv).
    exists attr, children, a, b. subst. split; [reflexivity | exact Hin].
  - intros (attr & children & a & b & Hn & Hin). subst n.
    cbn [is_code_part]. rewrite String.eqb_refl. cbn [andb].
    apply existsb_exists. exists ("class", a ++ "language-" ++ b). split; [exact Hin |].
    cbn [fst snd]. rewrite String.eqb_refl. cbn [andb].
    apply Contains_iff. now exists a, b.
Qed.

(** The closing wrapper does not overlap itself, whatever follows it. *)
Lemma html_close_no_overlap_before (s b : string) :
  HasPrefix (s ++ html_close ++ b) html_close = true ->
  s = EmptyString \/ HasPrefix s html_close = true.
Proof.
  intros H. unfold html_close in H at 2.
  do 14 peel_byte H s.
  right. reflexivity.
Qed.

(** The first occurrence of the closing wrapper is the one removed. *)
Lemma RemoveFirst_html_close_first (a b : string) :
  Contains a html_close = false ->
  RemoveFirst (a ++ html_close ++ b) html_close = a ++ b.
Proof.
  induction a as [|c a IH]; intros Hc.
  - exact (RemoveFirst_at_start html_close b).
  - rewrite Contains_unfold in Hc. apply orb_false_iff in Hc. destruct Hc as [Hp Hc].
    rewrite RemoveFirst_unfold.
    destruct (HasPrefix (String c a ++ html_close ++ b) html_close) eqn:Hq.
    + destruct (html_close_no_overlap_before _ _ Hq) as [He | Ht];
        [discriminate | congruence].
    + cbn [append]. now rewrite (IH Hc).
Qed.

(** X9: when the content of the serialized document itself contains the
    closing wrapper, that first occurrence is the one [replaceCodeParts]
    removes: the output is the content without it, followed by the closing
    wrapper that the serialization added. *)
Theorem replaceCodeParts_removes_first_close
        (htmlFile a b : string) (doc : Node) :
  html_Parse htmlFile = inl doc ->
  Html (Each_code doc) = (html_open ++ (a ++ html_close ++ b) ++ html_close, None) ->
  Contains a html_close = false ->
  replaceCodeParts htmlFile = (a ++ b ++ html_close, None).
Proof.
  intros Hparse Hhtml Ha.
  unfold replaceCodeParts. rewrite Hparse, Hhtml.
  rewrite RemoveFirst_at_start, !append_assoc.
  now rewrite (RemoveFirst_html_close_first a (b ++ html_close) Ha).
Qed.

End Generator.

(** ** The header reader on the sample inputs *)

Lemma getMeta_well_formed_header_witness :
  exists meta : Meta,
    getMeta Sample.yaml_Unmarshal Sample.time_Parse 4
            (mkReader (fenced "" Sample.header_lines "" Sample.body) io_EOF) "2006-01-02"
    = Some (Some meta, None, mkReader Sample.body io_EOF)
    /\ Title meta = "Hello" /\ Short meta = "A greeting" /\ Date meta = "2023-05-01"
    /\ ParsedDate meta = Sample.Date_ 2023 5 1
    /\ fst (fst (ReadAll (mkReader Sample.body io_EOF))) = Sample.body.
Proof.
  apply (getMeta_well_formed_header
           Sample.yaml_Unmarshal Sample.time_Parse
           "" "" Sample.body Sample.header_lines io_EOF "2006-01-02"
           Sample.header_meta 4).
  - reflexivity.
  - reflexivity.
  - repeat constructor.
  - vm_compute. lia.
  - reflexivity.
  - simpl. lia.
Defined.

(** C7 as the claim states it fails on a first line that the end of the
    stream cuts short: the line does not begin with the fence, and the error
    is the read error, not the missing-fence error. *)
Lemma getMeta_cut_first_line_is_read_error :
  HasPrefix (fst (fst (ReadString (mkReader "hello" io_EOF)))) "---" = false
  /\ getMeta Sample.yaml_Unmarshal Sample.time_Parse 1 (mkReader "hello" io_EOF) "2006-01-02"
     = Some (None, Some (Errorf "error ReadString: EOF"), mkReader "" io_EOF)
  /\ Errorf "error ReadString: EOF" <> errNoFence.
Proof. repeat split. discriminate. Qed.

Lemma getMeta_no_opening_fence_witness :
  exists e : error,
    getMeta Sample.yaml_Unmarshal Sample.time_Parse 1
            (mkReader ("hello" ++ String nl "---") io_EOF) "2006-01-02"
    = Some (None, Some e, mkReader "---" io_EOF)
    /\ e = errNoFence
    /\ getMeta_kind e MalformedHeader.
Proof.
  apply (getMeta_no_opening_fence
           Sample.yaml_Unmarshal Sample.time_Parse 1
           (mkReader ("hello" ++ String nl "---") io_EOF) "2006-01-02"
           ("hello" ++ String nl "") None (mkReader "---" io_EOF)).
  - reflexivity.
  - reflexivity.
Defined.

Lemma getMeta_invalid_metadata_witness :
  exists e : error,
    getMeta Sample.yaml_Unmarshal Sample.time_Parse 2
            (mkReader (fenced "" ["t"] "" Sample.body) io_EOF) "2006-01-02"
    = Some (None, Some e, mkReader Sample.body io_EOF)
    /\ getMeta_kind e InvalidMetadata.
Proof.
  apply (getMeta_invalid_metadata
           Sample.yaml_Unmarshal Sample.time_Parse 2
           (mkReader (fenced "" ["t"] "" Sample.body) io_EOF) "2006-01-02"
           ("---" ++ String nl "") ("t" ++ String nl "")
           (mkReader ("t" ++ String nl ("---" ++ String nl Sample.body)) io_EOF)
           (mkReader Sample.body io_EOF)).
  - reflexivity.
  - reflexivity.
  - reflexivity.
  - left. simpl. lia.
Defined.

(** The other way to InvalidMetadata: a header that does not decode. *)
Example getMeta_undecodable_header :
  getMeta Sample.yaml_Unmarshal Sample.time_Parse 2
          (mkReader (fenced "" ["title"] "" Sample.body) io_EOF) "2006-01-02"
  = Some (None, Some (Errorf "error reading yml: yaml: unmarshal errors"),
          mkReader Sample.body io_EOF).
Proof. reflexivity. Qed.


(** A closing fence that the end of the stream cuts short still closes the
    header. *)
Example getMeta_fence_at_end_of_stream :
  getMeta Sample.yaml_Unmarshal Sample.time_Parse 2
          (mkReader ("---" ++ String nl ("title: x" ++ String nl "---")) io_EOF) "2006-01-02"
  = Some (Some (mkMeta "x" "" "" zeroTime), None, mkReader "" io_EOF).
Proof. reflexivity. Qed.

(** ** The image collector and the assembler on the sample inputs *)

Lemma getImages_listing_order_witness :
  getImages Sample.ioutil_ReadDir Sample.filepath_Join "blog/hello"
  = ("blog/hello/images", ["b.png"; "a.png"; "raw"], None).
Proof.
  apply (getImages_listing_order
           Sample.ioutil_ReadDir Sample.filepath_Join "blog/hello"
           [mkFileInfo "b.png" false; mkFileInfo "a.png" false; mkFileInfo "raw" true]).
  reflexivity.
Defined.

(** C3: in a post directory without [post.md], [newPost] returns no Post,
    and the error it returns is that of reading the nil file: the message
    names the path but not the cause that [os.Open] reported, which is
    lost. *)
Theorem newPost_missing_post_md
        (yaml_Unmarshal : string -> Meta -> Meta * option error)
        (time_Parse : string -> string -> Time * option error)
        (MarkdownCommon : string -> string)
        (AsHTML : string -> string * option error)
        (Parse : string -> Node + error)
        (ParseFragment : string -> Node -> list Node)
        (Render : Node -> string * option error)
        (fuel : nat) (dateFormat : string) :
  Sample.os_Open_missing "blog/hello/post.md"
  = (None, Some (PathError "open" "blog/hello/post.md" ENOENT))
  /\ newPost yaml_Unmarshal time_Parse MarkdownCommon AsHTML Parse ParseFragment Render
             Sample.os_Open_missing Sample.ioutil_ReadDir
             Sample.filepath_Join Sample.filepath_Base
             fuel "blog/hello" dateFormat
     = Some (None,
             Some (Errorf "error parsing meta in blog/hello/post.md:error ReadString: invalid argument"))
  /\ Contains "error parsing meta in blog/hello/post.md:error ReadString: invalid argument"
              (Errno_Error ENOENT) = false.
Proof.
  split; [reflexivity | split; [| reflexivity]].
  apply (newPost_open_fails _ _ _ _ _ _ _ Sample.os_Open_missing _ Sample.filepath_Join _
                            fuel "blog/hello" dateFormat
                            (PathError "open" "blog/hello/post.md" ENOENT)).
  reflexivity.
Qed.

(** ** The highlighter and the tokenizer's error *)

Section TokenizerError.

Variable AsHTML : string -> string * option error.
Variable ParseFragment : string -> Node -> list Node.

Lemma highlight_code_without_error (n : Node) :
  highlight_code AsHTML ParseFragment n
  = highlight_code (without_error AsHTML) ParseFragment n.
Proof.
  destruct n as [data | data | tag attr children | children]; try reflexivity.
  unfold highlight_code, without_error.
  now destruct (AsHTML (Text (ElementNode tag attr children))).
Qed.

Lemma Each_code_without_error (n : Node) :
  Each_code AsHTML ParseFragment n
  = Each_code (without_error AsHTML) ParseFragment n.
Proof.
  induction n as [data | data | tag attr children IH | children IH]
    using Node_children_ind; try reflexivity.
  - cbn [Each_code]. destruct (is_code_part (ElementNode tag attr children)).
    + apply highlight_code_without_error.
    + f_equal. apply map_ext_Forall. exact IH.
  - cbn [Each_code is_code_part]. f_equal. apply map_ext_Forall. exact IH.
Qed.

(** Children without a selected element among them or below them are
    left as they are. *)
Lemma map_Each_code_no_selection (children : list Node) :
  Forall (fun c => is_code_part c = false -> Find c = [] ->
                   Each_code AsHTML ParseFragment c = c) children ->
  flat_map (fun c => ((if is_code_part c then [c] else []) ++ Find c)%list) children = [] ->
  map (Each_code AsHTML ParseFragment) children = children.
Proof.
  induction 1 as [|c cs Hc _ IH]; intros Hf; [reflexivity |].
  cbn [flat_map map] in *.
  apply app_eq_nil in Hf. destruct Hf as [Hhere Hcs].
  apply app_eq_nil in Hhere. destruct Hhere as [Hsel Hbelow].
  destruct (is_code_part c) eqn:E; [discriminate |].
  now rewrite (Hc eq_refl Hbelow), (IH Hcs).
Qed.

(** Where [Find] selects nothing, [Each] changes nothing. *)
Lemma Each_code_no_selection (n : Node) :
  is_code_part n = false -> Find n = [] -> Each_code AsHTML ParseFragment n = n.
Proof.
  induction n as [data | data | tag attr children IH | children IH]
    using Node_children_ind; intros Hn Hf; try reflexivity.
  - cbn [Each_code]. rewrite Hn. f_equal.
    apply map_Each_code_no_selection; assumption.
  - cbn [Each_code is_code_part]. f_equal.
    apply map_Each_code_no_selection; assumption.
Qed.

(** C4, as the code has it: a selected code element gets as its content
    the parse of the bytes that the tokenizer returned, whether it reported
    an error or not; and [replaceCodeParts] returns what it returns for the
    tokenizer without its error, so a failure of the tokenizer neither
    aborts the operation nor shows in its error. *)
Theorem replaceCodeParts_drops_tokenizer_error :
  (forall tag attr children,
      is_code_part (ElementNode tag attr children) = true ->
      Each_code AsHTML ParseFragment (ElementNode tag attr children)
      = ElementNode tag attr
          (ParseFragment (fst (AsHTML (Text (ElementNode tag attr children))))
                         (ElementNode tag attr children)))
  /\ (forall (Parse : string -> Node + error) (Render : Node -> string * option error)
             (htmlFile : string),
         replaceCodeParts AsHTML Parse ParseFragment Render htmlFile
         = replaceCodeParts (without_error AsHTML) Parse ParseFragment Render htmlFile).
Proof.
  split.
  - intros tag attr children Hsel.
    rewrite (Each_code_selected AsHTML ParseFragment _ Hsel).
    unfold highlight_code.
    now destruct (AsHTML (Text (ElementNode tag attr children))).
  - intros Parse Render htmlFile. unfold replaceCodeParts.
    destruct (Parse htmlFile) as [doc | err]; [| reflexivity].
    now rewrite Each_code_without_error.
Qed.

End TokenizerError.

Lemma replaceCodeParts_drops_tokenizer_error_witness :
  Each_code Sample.AsHTML_plain Sample.html_ParseFragment Sample.code_element
  = ElementNode "code" [("class", "language-go")] [TextNode "x := 1"].
Proof.
  apply (proj1 (replaceCodeParts_drops_tokenizer_error
                  Sample.AsHTML_plain Sample.html_ParseFragment)
               "code" [("class", "language-go")] [TextNode "x := 1"]).
  reflexivity.
Defined.

(** C4 as the claim states it fails with a tokenizer that fails: the
    selected element had the text [x := 1] and has no text afterwards, in
    the tree and in what [replaceCodeParts] returns. *)
Lemma failed_highlight_loses_the_text :
  is_code_part Sample.code_element = true
  /\ Text Sample.code_element = "x := 1"
  /\ snd (Sample.AsHTML_failing (Text Sample.code_element)) <> None
  /\ Text (Each_code Sample.AsHTML_failing Sample.html_ParseFragment Sample.code_element) = ""
  /\ replaceCodeParts Sample.AsHTML_failing Sample.html_Parse Sample.html_ParseFragment
                      Sample.html_Render Sample.code_html
     = ("<pre><code class=" ++ dq ++ "language-go" ++ dq ++ "></code></pre>", None).
Proof. repeat split. discriminate. Qed.

(** ** The wrapper on the sample inputs *)

Lemma replaceCodeParts_strips_wrapper_witness :
  replaceCodeParts Sample.AsHTML_plain Sample.html_Parse Sample.html_ParseFragment
                   Sample.html_Render Sample.code_html
  = ("<pre><code class=" ++ dq ++ "language-go" ++ dq
     ++ ">x := 1</code></pre>", None).
Proof.
  apply (replaceCodeParts_strips_wrapper
           Sample.AsHTML_plain Sample.html_Parse Sample.html_ParseFragment
           Sample.html_Render Sample.code_html
           ("<pre><code class=" ++ dq ++ "language-go" ++ dq
            ++ ">x := 1</code></pre>")
           (Sample.document [ElementNode "pre" [] [Sample.code_element]])).
  - reflexivity.
  - reflexivity.
  - reflexivity.
Defined.

(** C6 as the claim states it fails on content that spells the closing
    wrapper itself: the serialization ends with the wrapper that the round
    trip added, the removal takes the earlier occurrence inside the comment,
    and the output still ends with the wrapper. *)
Lemma wrapper_left_in_output :
  Html Sample.html_Render
       (Each_code Sample.AsHTML_plain Sample.html_ParseFragment
                  (Sample.document [ElementNode "p" [] [TextNode "a"];
                                    CommentNode "</body></html>"]))
  = ("<html><head></head><body><p>a</p><!--</body></html>--></body></html>", None)
  /\ replaceCodeParts Sample.AsHTML_plain Sample.html_Parse Sample.html_ParseFragment
                      Sample.html_Render Sample.comment_html
     = ("<p>a</p><!----></body></html>", None)
  /\ Contains "<p>a</p><!----></body></html>" html_close = true.
Proof. repeat split. Qed.

(** ** The ordering *)

Lemma After_strictly_after (t u : Time) : After t u = true <-> strictly_after t u.
Proof.
  unfold After, strictly_after.
  rewrite orb_true_iff, andb_true_iff, Z.gtb_ltb, Z.ltb_lt, Z.eqb_eq, Z.gtb_ltb, Z.ltb_lt.
  intuition lia.
Qed.

Lemma After_irrefl (t : Time) : After t t = false.
Proof.
  destruct (After t t) eqn:H; [| reflexivity].
  apply After_strictly_after in H. unfold strictly_after in H. lia.
Qed.

Lemma After_asym (t u : Time) : After t u = true -> After u t = false.
Proof.
  intros H. destruct (After u t) eqn:H'; [| reflexivity].
  apply After_strictly_after in H, H'. unfold strictly_after in *. lia.
Qed.


Local Open Scope list_scope.

Lemma at_index_here (pre : list Post) (y : Post) (t : list Post) :
  at_index (pre ++ y :: t) (List.length pre) = Some y.
Proof. induction pre as [|a pre IH]; [reflexivity | exact IH]. Qed.

Lemma at_index_next (pre : list Post) (y x : Post) (t : list Post) :
  at_index (pre ++ y :: x :: t) (S (List.length pre)) = Some x.
Proof. induction pre as [|a pre IH]; [reflexivity | exact IH]. Qed.

Lemma set_index_here (pre : list Post) (y z : Post) (t : list Post) :
  set_index (pre ++ y :: t) (List.length pre) z = (pre ++ z :: t)%list.
Proof.
  induction pre as [|a pre IH]; [reflexivity |].
  cbn [app List.length set_index]. now rewrite IH.
Qed.

Lemma set_index_next (pre : list Post) (y x z : Post) (t : list Post) :
  set_index (pre ++ y :: x :: t) (S (List.length pre)) z = (pre ++ y :: z :: t)%list.
Proof.
  induction pre as [|a pre IH]; [reflexivity |].
  cbn [app List.length set_index]. now rewrite IH.
Qed.

(** [Swap] of two neighbours. *)
Lemma Swap_neighbours (pre : list Post) (y x : Post) (t : list Post) :
  ByDateDesc_.Swap (pre ++ y :: x :: t) (S (List.length pre)) (List.length pre)
  = Some (pre ++ x :: y :: t)%list.
Proof.
  unfold ByDateDesc_.Swap.
  rewrite at_index_next, at_index_here, set_index_next, set_index_here.
  reflexivity.
Qed.

(** [Less] of an element and the one before it. *)
Lemma Less_neighbours (pre : list Post) (y x : Post) (t : list Post) :
  Post_Meta x <> None -> Post_Meta y <> None ->
  ByDateDesc_.Less (pre ++ y :: x :: t) (S (List.length pre)) (List.length pre)
  = Some (After (key x) (key y)).
Proof.
  intros Hx Hy. unfold ByDateDesc_.Less, key, date_of.
  rewrite at_index_next, at_index_here.
  destruct (Post_Meta x); [| congruence]. destruct (Post_Meta y); [| congruence].
  reflexivity.
Qed.

Lemma settle_length (x : Post) (r : list Post) :
  List.length (settle x r) = S (List.length r).
Proof.
  induction r as [|y r IH]; [reflexivity |].
  cbn [settle]. destruct (After (key x) (key y)); cbn [List.length]; now rewrite ?IH.
Qed.

Lemma settle_Permutation (x : Post) (r : list Post) :
  Permutation (x :: r) (settle x r).
Proof.
  induction r as [|y r IH]; [apply Permutation_refl |].
  cbn [settle]. destruct (After (key x) (key y)); [| apply Permutation_refl].
  eapply perm_trans; [apply perm_swap | apply perm_skip, IH].
Qed.

(** The inner loop: the element at [j] settles in the part before it. *)
Lemma sift_settles (r : list Post) :
  forall (x : Post) (t : list Post),
    Post_Meta x <> None -> Forall (fun a => Post_Meta a <> None) r ->
    sift (rev r ++ x :: t) 0 (List.length r) = Some (rev (settle x r) ++ t)%list.
Proof.
  induction r as [|y r IH]; intros x t Hx Hr; [reflexivity |].
  inversion Hr as [|? ? Hy Hr']; subst.
  cbn [List.length sift Nat.leb rev settle].
  rewrite <- app_assoc. cbn [app].
  rewrite <- (length_rev r).
  change (Less (rev r ++ y :: x :: t) (S (List.length (rev r))) (List.length (rev r)))
    with (ByDateDesc_.Less (rev r ++ y :: x :: t) (S (List.length (rev r))) (List.length (rev r))).
  rewrite (Less_neighbours (rev r) y x t Hx Hy).
  destruct (After (key x) (key y)).
  - change (Swap (rev r ++ y :: x :: t) (S (List.length (rev r))) (List.length (rev r)))
      with (ByDateDesc_.Swap (rev r ++ y :: x :: t) (S (List.length (rev r))) (List.length (rev r))).
    rewrite Swap_neighbours, length_rev, (IH x (y :: t) Hx Hr').
    cbn [rev]. now rewrite <- app_assoc.
  - cbn [rev]. now rewrite <- !app_assoc.
Qed.

(** The outer loop: the elements of [t] settle one after the other. *)
Lemma sift_from_settles (t : list Post) :
  forall r : list Post,
    Forall (fun a => Post_Meta a <> None) r ->
    Forall (fun a => Post_Meta a <> None) t ->
    sift_from (rev r ++ t) 0 (List.length r) (List.length t)
    = Some (rev (fold_left (fun r x => settle x r) t r)).
Proof.
  induction t as [|x t IH]; intros r Hr Ht.
  - cbn. now rewrite app_nil_r.
  - inversion Ht as [|? ? Hx Ht']; subst.
    cbn [List.length sift_from fold_left].
    rewrite (sift_settles r x t Hx Hr), <- (settle_length x r).
    apply IH; [| exact Ht'].
    eapply Permutation_Forall; [apply settle_Permutation | now constructor].
Qed.

Lemma may_follow_trans (a b c : Post) :
  may_follow a b -> may_follow b c -> may_follow a c.
Proof.
  unfold may_follow. intros Hab Hbc.
  destruct (After (key c) (key a)) eqn:H; [| reflexivity].
  apply After_strictly_after in H.
  apply not_true_iff_false in Hab, Hbc.
  rewrite After_strictly_after in Hab, Hbc.
  unfold strictly_after in *. lia.
Qed.

(** Settling keeps the part sorted: read backwards, every element may
    follow the ones after it. *)
Lemma settle_sorted (x : Post) (r : list Post) :
  StronglySorted (fun a b => may_follow b a) r ->
  StronglySorted (fun a b => may_follow b a) (settle x r).
Proof.
  induction 1 as [|y r Hs IH Hy]; cbn [settle].
  - constructor; constructor.
  - destruct (After (key x) (key y)) eqn:Hxy.
    + constructor; [exact IH |].
      eapply Permutation_Forall; [apply settle_Permutation |].
      constructor; [exact (After_asym _ _ Hxy) | exact Hy].
    + constructor; [now constructor |].
      constructor; [exact Hxy |].
      eapply Forall_impl; [| exact Hy].
      intros z Hz. exact (may_follow_trans z y x Hz Hxy).
Qed.

Lemma StronglySorted_snoc {A : Type} (R : A -> A -> Prop) (l : list A) (y : A) :
  StronglySorted R l -> Forall (fun z => R z y) l -> StronglySorted R (l ++ [y]).
Proof.
  induction 1 as [|a l Hs IH Ha]; intros Hy; cbn [app].
  - constructor; constructor.
  - inversion Hy as [|? ? Hay Hy']; subst.
    constructor; [exact (IH Hy') |].
    apply Forall_app. split; [exact Ha | now constructor].
Qed.

Lemma StronglySorted_rev {A : Type} (R : A -> A -> Prop) (r : list A) :
  StronglySorted (fun a b => R b a) r -> StronglySorted R (rev r).
Proof.
  induction 1 as [|y r Hs IH Hy]; cbn [rev]; [constructor |].
  apply StronglySorted_snoc; [exact IH |].
  apply Forall_rev. exact Hy.
Qed.

Lemma fold_settle_sorted (t : list Post) :
  forall r : list Post,
    StronglySorted (fun a b => may_follow b a) r ->
    StronglySorted (fun a b => may_follow b a) (fold_left (fun r x => settle x r) t r).
Proof.
  induction t as [|x t IH]; intros r Hr; [exact Hr |].
  cbn [fold_left]. apply IH, settle_sorted, Hr.
Qed.

Lemma fold_settle_Permutation (t : list Post) :
  forall r : list Post,
    Permutation (rev r ++ t) (rev (fold_left (fun r x => settle x r) t r)).
Proof.
  induction t as [|x t IH]; intros r.
  - cbn. now rewrite app_nil_r.
  - cbn [fold_left]. eapply perm_trans; [| apply IH].
    apply Permutation_trans with (l' := (rev r ++ [x]) ++ t).
    + now rewrite <- app_assoc.
    + apply Permutation_app_tail.
      change (rev r ++ [x]) with (rev (x :: r)).
      apply Permutation_rev', settle_Permutation.
Qed.

(** The insertion sort of package sort on a slice of posts, all with a
    Meta: it ends without a panic, and the slice it leaves is a permutation
    of the one it got in which no post is strictly after one before it. *)
Lemma insertionSort_descending (p : ByDateDesc) :
  Forall (fun a => Post_Meta a <> None) p ->
  exists p' : ByDateDesc,
    insertionSort p 0 (Len p) = Some p'
    /\ Permutation p p'
    /\ StronglySorted may_follow p'.
Proof.
  intros Hp. destruct p as [|a t].
  - exists []. repeat split; constructor.
  - inversion Hp as [|? ? Ha Ht]; subst.
    exists (rev (fold_left (fun r x => settle x r) t [a])).
    split; [| split].
    + unfold insertionSort. cbn [Len ByDateDesc_Interface ByDateDesc_.Len List.length Nat.add Nat.sub].
      rewrite Nat.sub_0_r.
      apply (sift_from_settles t [a]); [now constructor | exact Ht].
    + apply (fold_settle_Permutation t [a]).
    + apply StronglySorted_rev, fold_settle_sorted.
      constructor; constructor.
Qed.

(** C10: [Less] on two posts of the slice is [After] on their parsed
    dates, true exactly when the left date is strictly after the right one,
    hence false on equal dates, the zero date like any other; the insertion
    sort driven by it leaves any slice of posts in descending order of date;
    and the posts of January 2023, June 2023 and December 2022 come out as
    June, January, December. *)
Theorem ByDateDesc_Less_orders_descending :
  (forall (p : ByDateDesc) (i j : nat) (a b : Post) (ma mb : Meta),
      at_index p i = Some a -> at_index p j = Some b ->
      Post_Meta a = Some ma -> Post_Meta b = Some mb ->
      Less p i j = Some (After (ParsedDate ma) (ParsedDate mb))
      /\ (After (ParsedDate ma) (ParsedDate mb) = true
          <-> strictly_after (ParsedDate ma) (ParsedDate mb))
      /\ (ParsedDate ma = ParsedDate mb -> Less p i j = Some false))
  /\ (forall p : ByDateDesc,
         Forall (fun a => Post_Meta a <> None) p ->
         exists p' : ByDateDesc,
           insertionSort p 0 (Len p) = Some p'
           /\ Permutation p p'
           /\ StronglySorted may_follow p')
  /\ insertionSort [Sample.january; Sample.june; Sample.december] 0 3
     = Some [Sample.june; Sample.january; Sample.december].
Proof.
  split; [| split].
  - intros p i j a b ma mb Hi Hj Ha Hb.
    assert (HL : Less p i j = Some (After (ParsedDate ma) (ParsedDate mb))).
    { cbn [Less ByDateDesc_Interface]. unfold ByDateDesc_.Less.
      now rewrite Hi, Hj, Ha, Hb. }
    split; [exact HL | split].
    + apply After_strictly_after.
    + intros Heq. rewrite HL, Heq. now rewrite After_irrefl.
  - exact insertionSort_descending.
  - reflexivity.
Qed.

Lemma ByDateDesc_Less_orders_descending_witness :
  Less [Sample.january; Sample.june; Sample.december] 1 0 = Some true
  /\ Less [Sample.january; Sample.june; Sample.december] 0 1 = Some false
  /\ Less [Sample.january; Sample.june; Sample.december] 2 2 = Some false
  /\ exists p' : ByDateDesc,
       insertionSort [Sample.january; Sample.june; Sample.december] 0 3 = Some p'
       /\ Permutation [Sample.january; Sample.june; Sample.december] p'
       /\ StronglySorted may_follow p'.
Proof.
  destruct ByDateDesc_Less_orders_descending as [HLess [Hsort _]].
  split; [| split; [| split]].
  - exact (proj1 (HLess [Sample.january; Sample.june; Sample.december] 1 0
                        Sample.june Sample.january
                        (mkMeta "june" "" "" (Sample.Date_ 2023 6 1))
                        (mkMeta "january" "" "" (Sample.Date_ 2023 1 1))
                        eq_refl eq_refl eq_refl eq_refl)).
  - exact (proj1 (HLess [Sample.january; Sample.june; Sample.december] 0 1
                        Sample.january Sample.june
                        (mkMeta "january" "" "" (Sample.Date_ 2023 1 1))
                        (mkMeta "june" "" "" (Sample.Date_ 2023 6 1))
                        eq_refl eq_refl eq_refl eq_refl)).
  - exact (proj2 (proj2 (HLess [Sample.january; Sample.june; Sample.december] 2 2
                               Sample.december Sample.december
                               (mkMeta "december" "" "" (Sample.Date_ 2022 12 1))
                               (mkMeta "december" "" "" (Sample.Date_ 2022 12 1))
                               eq_refl eq_refl eq_refl eq_refl)) eq_refl).
  - apply (Hsort [Sample.january; Sample.june; Sample.december]).
    repeat constructor; discriminate.
Defined.

(** ** The output stage: properties *)

Section OutputProperties.

Variable Template : Type.
Variable filepath_Join : string -> string -> string.
Variable mkdir_result : list (Event Template) -> string -> option error.
Variable readdir_result : list (Event Template) -> string -> list FileInfo + error.
Variable copy_result : list (Event Template) -> string -> string -> option error.
Variable write_result :
  list (Event Template) -> string -> string -> string -> string -> Template -> option error.

(** One turn of the loop, and the straight-line code, unfolded. *)
Local Ltac copy_step := cbn [copy_files map app]; unfold bind, copyFile.
Local Ltac run_copyImagesDir := unfold copyImagesDir, bind, os_Mkdir, ReadDir_now, ret.
Local Ltac run_generate_post :=
  unfold generate_post, bind, fmt_Printf, os_Mkdir, Writer_WriteIndexHTML, ret.

Local Abbreviation copy_event := (copy_event Template filepath_Join).
Local Abbreviation copies_succeed := (copies_succeed Template filepath_Join copy_result).
Local Abbreviation copy_files := (copy_files Template filepath_Join copy_result).
Local Abbreviation copyImagesDir :=
  (copyImagesDir Template filepath_Join mkdir_result readdir_result copy_result).
Local Abbreviation generate_post :=
  (generate_post Template filepath_Join mkdir_result readdir_result copy_result write_result).
Local Abbreviation Generate :=
  (Generate Template filepath_Join mkdir_result readdir_result copy_result write_result).

(** When no copy fails, the loop copies every entry, in listing order. *)
Lemma copy_files_all (source path : string) (files : list FileInfo) :
  forall h : list (Event Template),
    copies_succeed source path files h ->
    copy_files source path files h = (None, h ++ map (copy_event source path) files).
Proof.
  induction files as [|f files IH]; intros h Hok.
  - cbn. now rewrite app_nil_r.
  - destruct Hok as [Hf Hrest].
    copy_step. rewrite Hf.
    transitivity (copy_files source path files (h ++ [copy_event source path f]));
      [reflexivity |].
    rewrite (IH _ Hrest), <- app_assoc. reflexivity.
Qed.

(** The loop stops at the first copy that fails: the entries after it are
    not copied and the error is returned as it is. *)
Lemma copy_files_first_failure
      (source path : string) (pre post : list FileInfo) (f : FileInfo) (e : error) :
  forall h : list (Event Template),
    copies_succeed source path pre h ->
    copy_result (h ++ map (copy_event source path) pre)
                (filepath_Join source (FileInfo_Name f))
                (filepath_Join path (FileInfo_Name f)) = Some e ->
    copy_files source path (pre ++ f :: post) h
    = (Some e, h ++ map (copy_event source path) pre ++ [copy_event source path f]).
Proof.
  induction pre as [|g pre IH]; intros h Hok Hfail.
  - cbn [map app] in *. rewrite app_nil_r in Hfail.
    copy_step. now rewrite Hfail.
  - destruct Hok as [Hg Hrest].
    copy_step. rewrite Hg.
    transitivity (copy_files source path (pre ++ f :: post)
                             (h ++ [copy_event source path g]));
      [reflexivity |].
    rewrite (IH (h ++ [copy_event source path g]) Hrest).
    + now rewrite <- !app_assoc.
    + cbn [map] in Hfail. now rewrite <- app_assoc.
Qed.

(** Every run of the copy loop is of one of two kinds: every copy
    succeeds, or the listing splits at the first entry whose copy fails. *)
Lemma copy_files_fail_fast (source path : string) (files : list FileInfo) :
  forall h : list (Event Template),
    (copies_succeed source path files h
     /\ copy_files source path files h
        = (None, h ++ map (copy_event source path) files))
    \/ (exists (pre post : list FileInfo) (f : FileInfo) (e : error),
           files = pre ++ f :: post
           /\ copies_succeed source path pre h
           /\ copy_result (h ++ map (copy_event source path) pre)
                          (filepath_Join source (FileInfo_Name f))
                          (filepath_Join path (FileInfo_Name f)) = Some e
           /\ copy_files source path files h
              = (Some e, h ++ map (copy_event source path) pre ++ [copy_event source path f])).
Proof.
  induction files as [|f files IH]; intros h.
  - left. split; [exact I | apply copy_files_all; exact I].
  - destruct (copy_result h (filepath_Join source (FileInfo_Name f))
                          (filepath_Join path (FileInfo_Name f))) as [e|] eqn:Hf.
    + right. exists [], files, f, e. cbn [app map]. rewrite app_nil_r.
      repeat split; try assumption.
      apply (copy_files_first_failure source path [] files f e h I).
      cbn [map]. now rewrite app_nil_r.
    + destruct (IH (h ++ [copy_event source path f]))
        as [[Hok Hrun] | (pre & post & g & e & Hsplit & Hok & Hfail & Hrun)].
      * left. assert (Hall : copies_succeed source path (f :: files) h) by (split; assumption).
        split; [exact Hall | now apply copy_files_all].
      * right. exists (f :: pre), post, g, e. subst files.
        assert (Hpre : copies_succeed source path (f :: pre) h) by (split; assumption).
        assert (Hfail' : copy_result (h ++ map (copy_event source path) (f :: pre))
                                     (filepath_Join source (FileInfo_Name g))
                                     (filepath_Join path (FileInfo_Name g)) = Some e).
        { cbn [map]. rewrite <- app_assoc in Hfail. exact Hfail. }
        repeat split; try assumption.
        apply (copy_files_first_failure source path (f :: pre) post g e h Hpre Hfail').
Qed.

(** X10: when [copyImagesDir] returns nil, the images directory of the
    destination was created, the source was listed after that, and every
    entry of that listing was copied, in listing order, each to the same
    name under the new directory; nothing else was called. *)
Theorem copyImagesDir_nil_means_all_copied
        (source destination : string) (h : list (Event Template)) :
  fst (copyImagesDir source destination h) = None ->
  exists files : list FileInfo,
    mkdir_result h (filepath_Join destination "images") = None
    /\ readdir_result (h ++ [Mkdir (filepath_Join destination "images")]) source = inl files
    /\ copies_succeed source (filepath_Join destination "images") files
                      (h ++ [Mkdir (filepath_Join destination "images"); ReadDir source])
    /\ snd (copyImagesDir source destination h)
       = h ++ Mkdir (filepath_Join destination "images") :: ReadDir source
           :: map (copy_event source (filepath_Join destination "images")) files.
Proof.
  run_copyImagesDir.
  destruct (mkdir_result h (filepath_Join destination "images")) as [e|] eqn:Hmk;
    [discriminate |].
  destruct (readdir_result (h ++ [Mkdir (filepath_Join destination "images")]) source)
    as [files | e] eqn:Hls; [| discriminate].
  intros Hnil. exists files.
  replace ((h ++ [Mkdir (filepath_Join destination "images")]) ++ [ReadDir source])
    with (h ++ [Mkdir (filepath_Join destination "images"); ReadDir source]) in *
    by now rewrite <- app_assoc.
  destruct (copy_files_fail_fast source (filepath_Join destination "images") files
              (h ++ [Mkdir (filepath_Join destination "images"); ReadDir source]))
    as [[Hok Hrun] | (pre & post & f & e & _ & _ & _ & Hrun)];
    rewrite Hrun in Hnil |- *; [| discriminate].
  repeat split; try assumption.
  cbn [snd]. now rewrite <- app_assoc.
Qed.

(** X11: when the source directory cannot be listed, [copyImagesDir] has
    already created the images directory of the destination, copies
    nothing, and returns an error whose message names that new directory,
    not the source that could not be read. *)
Theorem copyImagesDir_unreadable_source
        (source destination : string) (h : list (Event Template)) (e : error) :
  mkdir_result h (filepath_Join destination "images") = None ->
  readdir_result (h ++ [Mkdir (filepath_Join destination "images")]) source = inr e ->
  copyImagesDir source destination h
  = (Some (Errorf ("error reading directory " ++ filepath_Join destination "images"
                   ++ ": " ++ Error e)),
     h ++ [Mkdir (filepath_Join destination "images"); ReadDir source]).
Proof.
  intros Hmk Hls. run_copyImagesDir. rewrite Hmk, Hls.
  now rewrite <- app_assoc.
Qed.

(** X12: [copyImagesDir] stops at the first entry whose copy fails.  The
    entries before it and that entry are the only ones copied, in listing
    order; the entries after it are never touched, whatever they are; and
    the error of the failed copy is returned as it is, not wrapped. *)
Theorem copyImagesDir_stops_at_first_failure
        (source destination : string) (h : list (Event Template))
        (pre post : list FileInfo) (f : FileInfo) (e : error) :
  mkdir_result h (filepath_Join destination "images") = None ->
  readdir_result (h ++ [Mkdir (filepath_Join destination "images")]) source
  = inl (pre ++ f :: post) ->
  copies_succeed source (filepath_Join destination "images") pre
                 (h ++ [Mkdir (filepath_Join destination "images"); ReadDir source]) ->
  copy_result (h ++ [Mkdir (filepath_Join destination "images"); ReadDir source]
                 ++ map (copy_event source (filepath_Join destination "images")) pre)
              (filepath_Join source (FileInfo_Name f))
              (filepath_Join (filepath_Join destination "images") (FileInfo_Name f))
  = Some e ->
  copyImagesDir source destination h
  = (Some e,
     h ++ [Mkdir (filepath_Join destination "images"); ReadDir source]
       ++ map (copy_event source (filepath_Join destination "images")) (pre ++ [f])).
Proof.
  intros Hmk Hls Hpre Hfail. run_copyImagesDir. rewrite Hmk, Hls.
  replace ((h ++ [Mkdir (filepath_Join destination "images")]) ++ [ReadDir source])
    with (h ++ [Mkdir (filepath_Join destination "images"); ReadDir source])
    by now rewrite <- app_assoc.
  rewrite (copy_files_first_failure
             source (filepath_Join destination "images") pre post f e _ Hpre).
  - now rewrite map_app, <- !app_assoc.
  - now rewrite <- app_assoc.
Qed.

(** The last call of [copyImagesDir] is never a [Printf]. *)
Lemma copyImagesDir_last_event (source destination : string) (h : list (Event Template)) :
  exists (h1 : list (Event Template)) (ev : Event Template),
    snd (copyImagesDir source destination h) = h1 ++ [ev] /\ is_Printf ev = false.
Proof.
  run_copyImagesDir.
  destruct (mkdir_result h (filepath_Join destination "images")) as [e|].
  { eexists. eexists. split; reflexivity. }
  destruct (readdir_result (h ++ [Mkdir (filepath_Join destination "images")]) source)
    as [files | e].
  2: { eexists. eexists. split; reflexivity. }
  destruct (copy_files_fail_fast
              source (filepath_Join destination "images") files
              ((h ++ [Mkdir (filepath_Join destination "images")]) ++ [ReadDir source]))
    as [[_ Hrun] | (pre & post & f & e & _ & _ & _ & Hrun)]; rewrite Hrun; cbn [snd].
  - destruct files as [|f files] using rev_ind.
    + cbn [map]. rewrite app_nil_r. eexists. eexists. split; reflexivity.
    + rewrite map_app, app_assoc. cbn [map]. eexists. eexists. split; reflexivity.
  - rewrite app_assoc. eexists. eexists. split; reflexivity.
Qed.

(** X13: every run of [Generate] on a post with a Meta ends in one of two
    ways.  With a nil error, its last two calls wrote the index page of
    this post (its title, summary and HTML, at the post's own directory
    under the destination) and printed the line that reports the end.  With
    an error, the last call is never a [Printf]: the closing line is printed
    exactly when [Generate] succeeds. *)
Theorem generate_post_reports_the_end_iff_nil
        (post : Post) (meta : Meta) (destination : string) (t : Template)
        (h : list (Event Template)) :
  (fst (generate_post post meta destination t h) = None ->
   exists h1 : list (Event Template),
     snd (generate_post post meta destination t h)
     = h1 ++ [WriteIndexHTML (filepath_Join destination (Post_Name post))
                             (Title meta) (Short meta) (Post_HTML post) t;
              Printf (finished (Title meta))])
  /\ (forall e : error,
        fst (generate_post post meta destination t h) = Some e ->
        forall (h1 : list (Event Template)) (text : string),
          snd (generate_post post meta destination t h) <> h1 ++ [Printf text]).
Proof.
  assert (Hlast : forall (h0 h1 : list (Event Template)) (ev : Event Template) (text : string),
             is_Printf ev = false -> h0 ++ [ev] <> h1 ++ [Printf text]).
  { intros h0 h1 ev text Hev Heq. apply app_inj_tail in Heq.
    destruct Heq as [_ Heq]. subst ev. discriminate. }
  run_generate_post.
  destruct (mkdir_result (h ++ [Printf (generating (Title meta))])
                         (filepath_Join destination (Post_Name post))) as [e|].
  { cbn [fst snd]. split; [discriminate |]. intros e' _ h1 text. now apply Hlast. }
  destruct (String.eqb (Post_ImagesDir post) EmptyString).
  - cbv beta iota.
    destruct (write_result _ _ _ _ _ _) as [e|]; cbn [fst snd].
    + split; [discriminate |]. intros e' _ h1 text. now apply Hlast.
    + split; [| discriminate]. intros _. eexists. rewrite <- app_assoc. reflexivity.
  - destruct (copyImagesDir_last_event
                (Post_ImagesDir post) (filepath_Join destination (Post_Name post))
                ((h ++ [Printf (generating (Title meta))])
                   ++ [Mkdir (filepath_Join destination (Post_Name post))]))
      as (h1 & ev & Htrace & Hev).
    destruct (copyImagesDir _ _ _) as [[e|] h2]; cbn [snd] in Htrace; subst h2.
    + cbn [fst snd]. split; [discriminate |]. intros e' _ h3 text. now apply Hlast.
    + destruct (write_result _ _ _ _ _ _) as [e|]; cbn [fst snd].
      * split; [discriminate |]. intros e' _ h3 text. now apply Hlast.
      * split; [| discriminate]. intros _. eexists. rewrite <- app_assoc. reflexivity.
Qed.

(** X14: on a post whose [ImagesDir] is empty, [Generate] never lists or
    copies anything and creates one directory only, the post's own: its
    calls are the opening line and that [Mkdir], then, if the directory
    could be created, the writing of the index, then, if that succeeded,
    the closing line. *)
Theorem generate_post_without_images
        (post : Post) (meta : Meta) (destination : string) (t : Template)
        (h : list (Event Template)) :
  Post_ImagesDir post = EmptyString ->
  exists evs : list (Event Template),
    snd (generate_post post meta destination t h)
    = h ++ Printf (generating (Title meta))
        :: Mkdir (filepath_Join destination (Post_Name post)) :: evs
    /\ (evs = []
        \/ evs = [WriteIndexHTML (filepath_Join destination (Post_Name post))
                                 (Title meta) (Short meta) (Post_HTML post) t]
        \/ evs = [WriteIndexHTML (filepath_Join destination (Post_Name post))
                                 (Title meta) (Short meta) (Post_HTML post) t;
                  Printf (finished (Title meta))]).
Proof.
  intros Hdir. run_generate_post. rewrite Hdir. cbn [String.eqb].
  destruct (mkdir_result _ _) as [e|].
  { exists []. split; [cbn [snd]; now rewrite <- app_assoc | now left]. }
  cbv beta iota.
  destruct (write_result _ _ _ _ _ _) as [e|]; cbn [snd].
  - eexists. split; [rewrite <- !app_assoc; reflexivity | right; left; reflexivity].
  - eexists. split; [rewrite <- !app_assoc; reflexivity | right; right; reflexivity].
Qed.

End OutputProperties.

(** ** The highlighter where nothing is selected *)

(** X15: on a document in which the selector finds no element,
    [replaceCodeParts] does not depend on the tokenizer or on the parsing
    of fragments at all: whatever they are, the result is the same. *)
Theorem replaceCodeParts_without_code_parts
        (AsHTML AsHTML' : string -> string * option error)
        (ParseFragment ParseFragment' : string -> Node -> list Node)
        (Parse : string -> Node + error) (Render : Node -> string * option error)
        (htmlFile : string) (children : list Node) :
  Parse htmlFile = inl (DocumentNode children) ->
  Find (DocumentNode children) = [] ->
  replaceCodeParts AsHTML Parse ParseFragment Render htmlFile
  = replaceCodeParts AsHTML' Parse ParseFragment' Render htmlFile.
Proof.
  intros Hparse Hfind. unfold replaceCodeParts. rewrite Hparse.
  rewrite (Each_code_no_selection AsHTML ParseFragment
                                  (DocumentNode children) eq_refl Hfind).
  now rewrite (Each_code_no_selection AsHTML' ParseFragment'
                                      (DocumentNode children) eq_refl Hfind).
Qed.

Lemma replaceCodeParts_without_code_parts_witness :
  replaceCodeParts Sample.AsHTML_failing Sample.html_Parse Sample.html_ParseFragment
                   Sample.html_Render Sample.comment_html
  = replaceCodeParts Sample.AsHTML_plain Sample.html_Parse (fun _ _ => [])
                     Sample.html_Render Sample.comment_html.
Proof.
  apply (replaceCodeParts_without_code_parts
           Sample.AsHTML_failing Sample.AsHTML_plain
           Sample.html_ParseFragment (fun _ _ => [])
           Sample.html_Parse Sample.html_Render Sample.comment_html
           [ElementNode "html" []
              [ElementNode "head" [] [];
               ElementNode "body" []
                 [ElementNode "p" [] [TextNode "a"]; CommentNode "</body></html>"]]]).
  - reflexivity.
  - reflexivity.
Defined.

(** ** More of the ordering *)

Lemma set_index_length (p : ByDateDesc) :
  forall (i : nat) (x : Post), List.length (set_index p i x) = List.length p.
Proof.
  induction p as [|y p IH]; intros [|i] x; cbn [set_index List.length];
    try reflexivity.
  now rewrite IH.
Qed.

Lemma at_index_set_index_same (p : ByDateDesc) :
  forall (i : nat) (x : Post),
    i < List.length p -> at_index (set_index p i x) i = Some x.
Proof.
  induction p as [|y p IH]; intros [|i] x Hi; cbn [List.length] in Hi; try lia.
  - reflexivity.
  - apply IH. lia.
Qed.

Lemma at_index_set_index_other (p : ByDateDesc) :
  forall (i k : nat) (x : Post),
    i <> k -> at_index (set_index p i x) k = at_index p k.
Proof.
  induction p as [|y p IH]; intros [|i] [|k] x Hik; try reflexivity; try congruence.
  apply IH. congruence.
Qed.

Lemma at_index_in_range (p : ByDateDesc) (i : nat) (a : Post) :
  at_index p i = Some a -> i < List.length p.
Proof. intros H. apply nth_error_Some. unfold at_index in H. congruence. Qed.

(** X16: a [Swap] that does not panic exchanges the two elements and leaves
    every other element and the length as they were; the slice after it is
    a permutation of the slice before. *)
Theorem Swap_exchanges (p p' : ByDateDesc) (i j : nat) :
  Swap p i j = Some p' ->
  Len p' = Len p
  /\ at_index p' i = at_index p j
  /\ at_index p' j = at_index p i
  /\ (forall k : nat, k <> i -> k <> j -> at_index p' k = at_index p k)
  /\ Permutation p p'.
Proof.
  cbn [Swap Len ByDateDesc_Interface]. unfold ByDateDesc_.Swap, ByDateDesc_.Len.
  destruct (at_index p i) as [a|] eqn:Hi; [| discriminate].
  destruct (at_index p j) as [b|] eqn:Hj; [| discriminate].
  intros H. inversion H as [Hp']. clear H.
  pose proof (at_index_in_range p i a Hi) as Hlt_i.
  pose proof (at_index_in_range p j b Hj) as Hlt_j.
  assert (Hi' : at_index (set_index (set_index p i b) j a) i = Some b).
  { destruct (Nat.eq_dec j i) as [-> | Hne].
    - rewrite at_index_set_index_same by (now rewrite set_index_length). congruence.
    - rewrite at_index_set_index_other by exact Hne.
      now apply at_index_set_index_same. }
  assert (Hj' : at_index (set_index (set_index p i b) j a) j = Some a).
  { apply at_index_set_index_same. now rewrite set_index_length. }
  assert (Hk' : forall k, k <> i -> k <> j ->
                          at_index (set_index (set_index p i b) j a) k = at_index p k).
  { intros k Hki Hkj. rewrite !at_index_set_index_other by congruence. reflexivity. }
  split; [now rewrite !set_index_length |].
  split; [exact Hi' |]. split; [exact Hj' |]. split; [exact Hk' |].
  apply Permutation_nth_error. split; [now rewrite !set_index_length |].
  exists (fun n => if Nat.eqb n i then j else if Nat.eqb n j then i else n).
  split.
  - intros x y.
    destruct (Nat.eqb_spec x i), (Nat.eqb_spec y i),
             (Nat.eqb_spec x j), (Nat.eqb_spec y j); congruence.
  - intros n. fold (at_index (set_index (set_index p i b) j a) n).
    destruct (Nat.eqb_spec n i) as [-> | Hni].
    + rewrite Hi'. symmetry. exact Hj.
    + destruct (Nat.eqb_spec n j) as [-> | Hnj].
      * rewrite Hj'. symmetry. exact Hi.
      * now apply Hk'.
Qed.

Lemma Swap_exchanges_witness :
  exists p' : ByDateDesc,
    Swap [Sample.january; Sample.june; Sample.december] 0 2 = Some p'
    /\ p' = [Sample.december; Sample.june; Sample.january]
    /\ Permutation [Sample.january; Sample.june; Sample.december] p'.
Proof.
  exists [Sample.december; Sample.june; Sample.january].
  split; [reflexivity | split; [reflexivity |]].
  exact (proj2 (proj2 (proj2 (proj2
    (Swap_exchanges [Sample.january; Sample.june; Sample.december]
                    [Sample.december; Sample.june; Sample.january] 0 2 eq_refl))))).
Defined.

(** On a slice of posts, none of them nil: [Swap] panics exactly when one
    of its two indices is out of range, and [Less] exactly when one is out
    of range or the post at one of them has a nil Meta. *)
Lemma Swap_Less_panic_iff (p : ByDateDesc) (i j : nat) :
  (Swap p i j = None <-> Len p <= i \/ Len p <= j)
  /\ (Less p i j = None
      <-> Len p <= i \/ Len p <= j
          \/ (exists a : Post, at_index p i = Some a /\ Post_Meta a = None)
          \/ (exists b : Post, at_index p j = Some b /\ Post_Meta b = None)).
Proof.
  cbn [Swap Less Len ByDateDesc_Interface].
  unfold ByDateDesc_.Swap, ByDateDesc_.Less, ByDateDesc_.Len, at_index.
  rewrite <- !nth_error_None.
  destruct (nth_error p i) as [a|], (nth_error p j) as [b|].
  - split; [split; [discriminate | intros [H | H]; discriminate] |].
    destruct (Post_Meta a) as [ma|] eqn:Ha.
    + destruct (Post_Meta b) as [mb|] eqn:Hb.
      * split; [discriminate |].
        intros [H | [H | [(a' & Ha' & Hm) | (b' & Hb' & Hm)]]]; try discriminate.
        -- inversion Ha'; subst; congruence.
        -- inversion Hb'; subst; congruence.
      * split; [| reflexivity]. intros _. right; right; right. now exists b.
    + split; [| reflexivity]. intros _. right; right; left. now exists a.
  - split; (split; [intros _ | reflexivity]).
    + right. reflexivity.
    + right; left. reflexivity.
  - split; (split; [intros _; left; reflexivity | reflexivity]).
  - split; (split; [intros _; left; reflexivity | reflexivity]).
Qed.

(** [Less] on two indices in range of a slice whose posts all have a Meta. *)
Lemma Less_in_range (p : ByDateDesc) (i j : nat) :
  Forall (fun a => Post_Meta a <> None) p ->
  i < Len p -> j < Len p ->
  exists a b : Post,
    at_index p i = Some a /\ at_index p j = Some b
    /\ Less p i j = Some (After (key a) (key b)).
Proof.
  intros Hp Hi Hj. cbn [Len Less ByDateDesc_Interface] in *.
  unfold ByDateDesc_.Len, ByDateDesc_.Less, at_index in *.
  destruct (nth_error p i) as [a|] eqn:Ha; [| apply nth_error_None in Ha; lia].
  destruct (nth_error p j) as [b|] eqn:Hb; [| apply nth_error_None in Hb; lia].
  exists a, b. repeat split.
  rewrite Forall_forall in Hp.
  pose proof (Hp a (nth_error_In _ _ Ha)) as Hma.
  pose proof (Hp b (nth_error_In _ _ Hb)) as Hmb.
  unfold key, date_of.
  destruct (Post_Meta a); [| congruence]. destruct (Post_Meta b); [| congruence].
  reflexivity.
Qed.

(** X18: on a slice whose posts all have a Meta, [Less] is a strict weak
    ordering of the indices in range, which is what [sort.Sort] asks of it:
    no index is less than itself, less is transitive, and so is being
    neither less nor greater (having the same date). *)
Theorem Less_strict_weak_order (p : ByDateDesc) (i j k : nat) :
  Forall (fun a => Post_Meta a <> None) p ->
  i < Len p -> j < Len p -> k < Len p ->
  Less p i i = Some false
  /\ (Less p i j = Some true -> Less p j i = Some false)
  /\ (Less p i j = Some true -> Less p j k = Some true -> Less p i k = Some true)
  /\ (Less p i j = Some false -> Less p j k = Some false -> Less p i k = Some false).
Proof.
  intros Hp Hi Hj Hk.
  destruct (Less_in_range p i i Hp Hi Hi) as (a & a' & Ha & Ha' & Hii).
  destruct (Less_in_range p i j Hp Hi Hj) as (a1 & b & Ha1 & Hb & Hij).
  destruct (Less_in_range p j i Hp Hj Hi) as (b1 & a2 & Hb1 & Ha2 & Hji).
  destruct (Less_in_range p j k Hp Hj Hk) as (b2 & c & Hb2 & Hc & Hjk).
  destruct (Less_in_range p i k Hp Hi Hk) as (a3 & c1 & Ha3 & Hc1 & Hik).
  assert (a' = a) by congruence. assert (a1 = a) by congruence.
  assert (a2 = a) by congruence. assert (a3 = a) by congruence.
  assert (b1 = b) by congruence. assert (b2 = b) by congruence.
  assert (c1 = c) by congruence. subst.
  rewrite Hii, Hij, Hji, Hjk, Hik. clear.
  assert (Hf : forall t u, After t u = false <-> ~ strictly_after t u).
  { intros t u. rewrite <- After_strictly_after. now destruct (After t u). }
  repeat split.
  - now rewrite After_irrefl.
  - intros H. injection H as H1. f_equal. apply After_asym. exact H1.
  - intros H1 H2. injection H1 as H1. injection H2 as H2. f_equal.
    apply After_strictly_after in H1, H2. apply After_strictly_after.
    unfold strictly_after in *. lia.
  - intros H1 H2. injection H1 as H1. injection H2 as H2. f_equal.
    apply Hf in H1, H2. apply Hf. unfold strictly_after in *. lia.
Qed.

Lemma Less_strict_weak_order_witness :
  Less [Sample.january; Sample.june; Sample.december] 1 1 = Some false
  /\ (Less [Sample.january; Sample.june; Sample.december] 1 0 = Some true ->
      Less [Sample.january; Sample.june; Sample.december] 0 1 = Some false)
  /\ (Less [Sample.january; Sample.june; Sample.december] 1 0 = Some true ->
      Less [Sample.january; Sample.june; Sample.december] 0 2 = Some true ->
      Less [Sample.january; Sample.june; Sample.december] 1 2 = Some true)
  /\ (Less [Sample.january; Sample.june; Sample.december] 1 0 = Some false ->
      Less [Sample.january; Sample.june; Sample.december] 0 2 = Some false ->
      Less [Sample.january; Sample.june; Sample.december] 1 2 = Some false).
Proof.
  apply (Less_strict_weak_order [Sample.january; Sample.june; Sample.december] 1 0 2).
  - repeat constructor; discriminate.
  - cbn. lia.
  - cbn. lia.
  - cbn. lia.
Defined.

(** An element that is not strictly after the last of the sorted part
    stays where it is. *)
Lemma settle_in_place (x : Post) (r : list Post) :
  match r with
  | [] => True
  | y :: _ => may_follow y x
  end ->
  settle x r = x :: r.
Proof.
  destruct r as [|y r]; [reflexivity |].
  unfold may_follow. cbn [settle]. intros H. now rewrite H.
Qed.

Lemma StronglySorted_app_cons {A : Type} (R : A -> A -> Prop) (l1 l2 : list A) (y : A) :
  StronglySorted R (l1 ++ y :: l2) -> Forall (R y) l2.
Proof.
  induction l1 as [|a l1 IH]; cbn [app]; intros H; inversion H; subst; auto.
Qed.

Lemma fold_settle_of_sorted (t : list Post) :
  forall r : list Post,
    StronglySorted may_follow (rev r ++ t) ->
    fold_left (fun r x => settle x r) t r = rev t ++ r.
Proof.
  induction t as [|x t IH]; intros r Hs; [reflexivity |].
  cbn [fold_left rev]. rewrite settle_in_place.
  - rewrite IH; [now rewrite <- app_assoc |].
    cbn [rev]. now rewrite <- app_assoc.
  - destruct r as [|y r]; [exact I |].
    cbn [rev] in Hs. rewrite <- app_assoc in Hs. cbn [app] in Hs.
    apply StronglySorted_app_cons in Hs. now inversion Hs.
Qed.

(** X19: the insertion sort leaves a slice that is already in descending
    order of date exactly as it is, posts of equal date included; sorting
    what it has sorted changes nothing. *)
Theorem insertionSort_keeps_sorted (p : ByDateDesc) :
  Forall (fun a => Post_Meta a <> None) p ->
  StronglySorted may_follow p ->
  insertionSort p 0 (Len p) = Some p.
Proof.
  intros Hp Hs. destruct p as [|a t]; [reflexivity |].
  inversion Hp as [|? ? Ha Ht]; subst.
  unfold insertionSort.
  cbn [Len ByDateDesc_Interface ByDateDesc_.Len List.length Nat.add Nat.sub].
  rewrite Nat.sub_0_r.
  assert (Hrun := sift_from_settles t [a] (Forall_cons a Ha (Forall_nil _)) Ht).
  transitivity (Some (rev (fold_left (fun r x => settle x r) t [a]))); [exact Hrun |].
  rewrite (fold_settle_of_sorted t [a] Hs).
  now rewrite rev_app_distr, rev_involutive.
Qed.

Lemma insertionSort_keeps_sorted_witness :
  insertionSort [Sample.june; Sample.january; Sample.january; Sample.december] 0 4
  = Some [Sample.june; Sample.january; Sample.january; Sample.december].
Proof.
  apply (insertionSort_keeps_sorted
           [Sample.june; Sample.january; Sample.january; Sample.december]).
  - repeat constructor; discriminate.
  - repeat constructor.
Defined.

(** Among the posts of one date, settling puts the new one last. *)
Lemma settle_same_date (t : Time) (x : Post) (r : list Post) :
  filter (same_date t) (settle x r)
  = (if same_date t x then [x] else []) ++ filter (same_date t) r.
Proof.
  induction r as [|y r IH].
  { cbn [settle filter]. now destruct (same_date t x). }
  cbn [settle]. destruct (After (key x) (key y)) eqn:Hxy.
  2: { cbn [filter]. now destruct (same_date t x). }
  cbn [filter]. rewrite IH.
  destruct (same_date t x) eqn:Hx, (same_date t y) eqn:Hy; try reflexivity.
  exfalso. unfold same_date in Hx, Hy.
  apply andb_true_iff in Hx, Hy. destruct Hx as [Hx1 Hx2], Hy as [Hy1 Hy2].
  apply Z.eqb_eq in Hx1, Hx2, Hy1, Hy2.
  apply After_strictly_after in Hxy. unfold strictly_after in Hxy. lia.
Qed.

Lemma fold_settle_same_date (t : Time) (l : list Post) :
  forall r : list Post,
    filter (same_date t) (fold_left (fun r x => settle x r) l r)
    = rev (filter (same_date t) l) ++ filter (same_date t) r.
Proof.
  induction l as [|x l IH]; intros r; [reflexivity |].
  cbn [fold_left filter]. rewrite IH, settle_same_date.
  destruct (same_date t x); cbn [rev app]; [| reflexivity].
  now rewrite <- app_assoc.
Qed.

(** X20: the insertion sort is stable under [Less]: the posts of any one
    date come out in the order in which they went in. *)
Theorem insertionSort_stable (p p' : ByDateDesc) (t : Time) :
  Forall (fun a => Post_Meta a <> None) p ->
  insertionSort p 0 (Len p) = Some p' ->
  filter (same_date t) p' = filter (same_date t) p.
Proof.
  intros Hp. destruct p as [|a l]; [intros H; inversion H; reflexivity |].
  inversion Hp as [|? ? Ha Hl]; subst.
  unfold insertionSort.
  cbn [Len ByDateDesc_Interface ByDateDesc_.Len List.length Nat.add Nat.sub].
  rewrite Nat.sub_0_r.
  assert (Hrun := sift_from_settles l [a] (Forall_cons a Ha (Forall_nil _)) Hl).
  intros H.
  assert (Hp' : Some (rev (fold_left (fun r x => settle x r) l [a])) = Some p')
    by (rewrite <- H; symmetry; exact Hrun).
  injection Hp' as Hp'. subst p'.
  rewrite filter_rev, fold_settle_same_date, rev_app_distr, rev_involutive.
  cbn [filter]. destruct (same_date t a); reflexivity.
Qed.

Lemma insertionSort_stable_witness :
  filter (same_date (Sample.Date_ 2023 1 1))
         [Sample.june; Sample.post_of "first" 2023 1 1; Sample.post_of "second" 2023 1 1]
  = filter (same_date (Sample.Date_ 2023 1 1))
           [Sample.post_of "first" 2023 1 1; Sample.june; Sample.post_of "second" 2023 1 1].
Proof.
  apply (insertionSort_stable
           [Sample.post_of "first" 2023 1 1; Sample.june; Sample.post_of "second" 2023 1 1]
           [Sample.june; Sample.post_of "first" 2023 1 1; Sample.post_of "second" 2023 1 1]
           (Sample.Date_ 2023 1 1)).
  - repeat constructor; discriminate.
  - reflexivity.
Defined.

(** ** From [newPost] to [Generate] *)

Section Assembly.

Variable yaml_Unmarshal : string -> Meta -> Meta * option error.
Variable time_Parse : string -> string -> Time * option error.
Variable blackfriday_MarkdownCommon : string -> string.
Variable syntaxhighlight_AsHTML : string -> string * option error.
Variable html_Parse : string -> Node + error.
Variable html_ParseFragment : string -> Node -> list Node.
Variable html_Render : Node -> string * option error.
Variable os_Open : string -> option File * option error.
Variable ioutil_ReadDir : string -> list FileInfo + error.
Variable filepath_Join : string -> string -> string.
Variable filepath_Base : string -> string.
Variable Template : Type.
Variable mkdir_result : list (Event Template) -> string -> option error.
Variable readdir_result : list (Event Template) -> string -> list FileInfo + error.
Variable copy_result : list (Event Template) -> string -> string -> option error.
Variable write_result :
  list (Event Template) -> string -> string -> string -> string -> Template -> option error.

(** X21: [Generate] on a Post that [newPost] returned never panics on a nil
    pointer: the Post has a Meta, and [Generate] runs its body on it,
    whatever the destination, the template and the calls made before. *)
Theorem Generate_after_newPost
        (fuel : nat) (path dateFormat : string) (post : Post) (err : option error)
        (destination : string) (t : Template) (h : list (Event Template)) :
  newPost yaml_Unmarshal time_Parse blackfriday_MarkdownCommon syntaxhighlight_AsHTML
          html_Parse html_ParseFragment html_Render os_Open ioutil_ReadDir
          filepath_Join filepath_Base fuel path dateFormat
  = Some (Some post, err) ->
  exists meta : Meta,
    Post_Meta post = Some meta
    /\ Generate Template filepath_Join mkdir_result readdir_result copy_result write_result
                (mkPostGenerator (Some (mkPostConfig (Some post) destination t))) h
       = Some (generate_post Template filepath_Join mkdir_result readdir_result
                             copy_result write_result post meta destination t h).
Proof.
  intros Hnew.
  pose proof (newPost_Post_has_Meta _ _ _ _ _ _ _ _ _ _ _ _ _ _ _ _ Hnew) as Hmeta.
  destruct (Post_Meta post) as [meta|] eqn:Hm; [| congruence].
  exists meta. split; [reflexivity |].
  unfold Generate. cbn [Config Config_Post Config_Destination Config_Template].
  now rewrite Hm.
Qed.

End Assembly.

(** ** The extras on the sample inputs *)

Lemma getMeta_meta_xor_error_witness :
  (Some (mkMeta "x" "" "" zeroTime) = None /\ @None error <> None)
  \/ (Some (mkMeta "x" "" "" zeroTime) <> None /\ @None error = None).
Proof.
  apply (getMeta_meta_xor_error
           Sample.yaml_Unmarshal Sample.time_Parse 2
           (mkReader ("---" ++ String nl ("title: x" ++ String nl "---")) io_EOF)
           (mkReader "" io_EOF) "2006-01-02").
  reflexivity.
Defined.

Lemma getMeta_read_error_in_header_witness :
  getMeta Sample.yaml_Unmarshal Sample.time_Parse 2 SamplePost.failing_header "2006-01-02"
  = Some (None,
          Some (Errorf "error ReadString: read blog/hello/post.md: input/output error"),
          mkReader "" (PathError "read" "blog/hello/post.md" EIO)).
Proof.
  apply (getMeta_read_error_in_header
           Sample.yaml_Unmarshal Sample.time_Parse
           "" "sho" ["title: Hello"] (PathError "read" "blog/hello/post.md" EIO)
           "2006-01-02" 2).
  - reflexivity.
  - repeat constructor.
  - reflexivity.
  - reflexivity.
  - cbn. lia.
Defined.

Lemma getImages_without_listing_witness :
  getImages Sample.ioutil_ReadDir Sample.filepath_Join "blog/none" = ("", [], None).
Proof.
  apply (getImages_without_listing
           Sample.ioutil_ReadDir Sample.filepath_Join "blog/none"
           (PathError "open" "blog/none/images" ENOENT)).
  reflexivity.
Defined.

Lemma newPost_assembles_witness :
  newPost Sample.yaml_Unmarshal Sample.time_Parse SamplePost.blackfriday_MarkdownCommon
          Sample.AsHTML_plain SamplePost.html_Parse Sample.html_ParseFragment
          Sample.html_Render SamplePost.os_Open Sample.ioutil_ReadDir
          Sample.filepath_Join Sample.filepath_Base 4 "blog/hello" "2006-01-02"
  = Some (Some (mkPost "hello" SamplePost.body_html
                       (Some (mkMeta "Hello" "A greeting" "2023-05-01"
                                     (Sample.Date_ 2023 5 1)))
                       "blog/hello/images" ["b.png"; "a.png"; "raw"]),
          None).
Proof.
  apply (newPost_assembles
           Sample.yaml_Unmarshal Sample.time_Parse SamplePost.blackfriday_MarkdownCommon
           Sample.AsHTML_plain SamplePost.html_Parse Sample.html_ParseFragment
           Sample.html_Render SamplePost.os_Open Sample.ioutil_ReadDir
           Sample.filepath_Join Sample.filepath_Base 4 "blog/hello" "2006-01-02"
           "" "" SamplePost.body Sample.header_lines
           (PathError "read" "blog/hello/post.md" EIO) None
           Sample.header_meta SamplePost.body_html
           "blog/hello/images" ["b.png"; "a.png"; "raw"]).
  - reflexivity.
  - reflexivity.
  - reflexivity.
  - repeat constructor.
  - vm_compute. lia.
  - reflexivity.
  - reflexivity.
  - reflexivity.
  - cbn. lia.
Defined.

Lemma newPost_post_xor_error_witness :
  exists p : Post,
    Post_Meta p <> None /\ Post_Name p = "hello"
    /\ Post_Images p = ["b.png"; "a.png"; "raw"].
Proof.
  destruct (newPost_post_xor_error
              Sample.yaml_Unmarshal Sample.time_Parse SamplePost.blackfriday_MarkdownCommon
              Sample.AsHTML_plain SamplePost.html_Parse Sample.html_ParseFragment
              Sample.html_Render SamplePost.os_Open Sample.ioutil_ReadDir
              Sample.filepath_Join Sample.filepath_Base 4 "blog/hello" "2006-01-02"
              (Some (mkPost "hello" SamplePost.body_html
                            (Some (mkMeta "Hello" "A greeting" "2023-05-01"
                                          (Sample.Date_ 2023 5 1)))
                            "blog/hello/images" ["b.png"; "a.png"; "raw"]))
              None eq_refl)
    as [[Hnone _] | (p & Hp & _ & Hmeta & Hname)].
  - discriminate Hnone.
  - exists p. injection Hp as Hp. subst p. repeat split. exact Hmeta.
Defined.

Lemma newPost_errors_witness :
  (exists cause : error,
      Errorf "error parsing meta in blog/hello/post.md:error ReadString: invalid argument"
      = Errorf ("error parsing meta in " ++ Sample.filepath_Join "blog/hello" "post.md"
                ++ ":" ++ Error cause))
  \/ (exists cause : error,
         Errorf "error parsing meta in blog/hello/post.md:error ReadString: invalid argument"
         = Errorf ("error during syntax highlighting : " ++ Error cause))
  \/ (exists cause : error,
         Errorf "error parsing meta in blog/hello/post.md:error ReadString: invalid argument"
         = Errorf ("error while reading folder "
                   ++ Sample.filepath_Join "blog/hello" "images" ++ ": " ++ Error cause)).
Proof.
  apply (newPost_errors
           Sample.yaml_Unmarshal Sample.time_Parse SamplePost.blackfriday_MarkdownCommon
           Sample.AsHTML_plain SamplePost.html_Parse Sample.html_ParseFragment
           Sample.html_Render Sample.os_Open_missing Sample.ioutil_ReadDir
           Sample.filepath_Join Sample.filepath_Base 1 "blog/hello" "2006-01-02" None).
  reflexivity.
Defined.

Lemma is_code_part_iff_witness :
  is_code_part (ElementNode "code" [("id", "x"); ("class", "my-language-ish")] []) = true.
Proof.
  apply (proj2 (is_code_part_iff
                  (ElementNode "code" [("id", "x"); ("class", "my-language-ish")] []))).
  exists [("id", "x"); ("class", "my-language-ish")], [], "my-", "ish".
  split; [reflexivity | right; left; reflexivity].
Defined.

Lemma replaceCodeParts_removes_first_close_witness :
  replaceCodeParts Sample.AsHTML_plain Sample.html_Parse Sample.html_ParseFragment
                   Sample.html_Render Sample.comment_html
  = (("<p>a</p><!--" ++ "-->" ++ "</body></html>")%string, None).
Proof.
  apply (replaceCodeParts_removes_first_close
           Sample.AsHTML_plain Sample.html_Parse Sample.html_ParseFragment
           Sample.html_Render Sample.comment_html "<p>a</p><!--" "-->"
           (Sample.document [ElementNode "p" [] [TextNode "a"];
                             CommentNode "</body></html>"])).
  - reflexivity.
  - reflexivity.
  - reflexivity.
Defined.

Lemma Swap_Less_panic_iff_witness :
  Swap [Sample.january; Sample.june] 0 2 = None
  /\ Less [Sample.january; mkPost "draft" "" None "" []] 0 1 = None.
Proof.
  split.
  - apply (proj2 (proj1 (Swap_Less_panic_iff [Sample.january; Sample.june] 0 2))).
    right. cbn. lia.
  - apply (proj2 (proj2 (Swap_Less_panic_iff
                           [Sample.january; mkPost "draft" "" None "" []] 0 1))).
    right; right; right. exists (mkPost "draft" "" None "" []). split; reflexivity.
Defined.

Lemma copyImagesDir_nil_means_all_copied_witness :
  snd (copyImagesDir SampleOutput.Template Sample.filepath_Join
                     SampleOutput.mkdir_result SampleOutput.readdir_result
                     SampleOutput.copy_ok "blog/hello/images" "site/hello" [])
  = [Mkdir "site/hello/images"; ReadDir "blog/hello/images";
     CopyFile "blog/hello/images/a.png" "site/hello/images/a.png";
     CopyFile "blog/hello/images/b.png" "site/hello/images/b.png";
     CopyFile "blog/hello/images/raw" "site/hello/images/raw"].
Proof.
  destruct (copyImagesDir_nil_means_all_copied
              SampleOutput.Template Sample.filepath_Join
              SampleOutput.mkdir_result SampleOutput.readdir_result
              SampleOutput.copy_ok "blog/hello/images" "site/hello" [] eq_refl)
    as (files & _ & Hls & _ & Htrace).
  rewrite Htrace. injection Hls as Hls. subst files. reflexivity.
Defined.

Lemma copyImagesDir_unreadable_source_witness :
  copyImagesDir SampleOutput.Template Sample.filepath_Join
                SampleOutput.mkdir_result SampleOutput.readdir_result
                SampleOutput.copy_ok "blog/none/images" "site/hello" []
  = (Some (Errorf "error reading directory site/hello/images: open blog/none/images: no such file or directory"),
     [Mkdir "site/hello/images"; ReadDir "blog/none/images"]).
Proof.
  apply (copyImagesDir_unreadable_source
           SampleOutput.Template Sample.filepath_Join
           SampleOutput.mkdir_result SampleOutput.readdir_result
           SampleOutput.copy_ok "blog/none/images" "site/hello" []
           (PathError "open" "blog/none/images" ENOENT)).
  - reflexivity.
  - reflexivity.
Defined.

Lemma copyImagesDir_stops_at_first_failure_witness :
  copyImagesDir SampleOutput.Template Sample.filepath_Join
                SampleOutput.mkdir_result SampleOutput.readdir_result
                SampleOutput.copy_result "blog/hello/images" "site/hello" []
  = (Some (Errorf "error copying blog/hello/images/b.png"),
     [Mkdir "site/hello/images"; ReadDir "blog/hello/images";
      CopyFile "blog/hello/images/a.png" "site/hello/images/a.png";
      CopyFile "blog/hello/images/b.png" "site/hello/images/b.png"]).
Proof.
  apply (copyImagesDir_stops_at_first_failure
           SampleOutput.Template Sample.filepath_Join
           SampleOutput.mkdir_result SampleOutput.readdir_result
           SampleOutput.copy_result "blog/hello/images" "site/hello" []
           [mkFileInfo "a.png" false] [mkFileInfo "raw" true] (mkFileInfo "b.png" false)
           (Errorf "error copying blog/hello/images/b.png")).
  - reflexivity.
  - reflexivity.
  - split; [reflexivity | exact I].
  - reflexivity.
Defined.

Lemma generate_post_reports_the_end_iff_nil_witness :
  exists h1 : list (Event SampleOutput.Template),
    snd (generate_post SampleOutput.Template Sample.filepath_Join
                       SampleOutput.mkdir_result SampleOutput.readdir_result
                       SampleOutput.copy_ok SampleOutput.write_result
                       SampleOutput.post_with_images
                       (mkMeta "Hello" "A greeting" "2023-05-01" zeroTime)
                       "site" "index" [])
    = h1 ++ [WriteIndexHTML "site/hello" "Hello" "A greeting" "<p>Hi</p>" "index";
             Printf (finished "Hello")].
Proof.
  apply (proj1 (generate_post_reports_the_end_iff_nil
                  SampleOutput.Template Sample.filepath_Join
                  SampleOutput.mkdir_result SampleOutput.readdir_result
                  SampleOutput.copy_ok SampleOutput.write_result
                  SampleOutput.post_with_images
                  (mkMeta "Hello" "A greeting" "2023-05-01" zeroTime)
                  "site" "index" [])).
  reflexivity.
Defined.

Lemma generate_post_without_images_witness :
  exists evs : list (Event SampleOutput.Template),
    snd (generate_post SampleOutput.Template Sample.filepath_Join
                       SampleOutput.mkdir_result SampleOutput.readdir_result
                       SampleOutput.copy_result SampleOutput.write_result
                       SampleOutput.post_without_images
                       (mkMeta "Hello" "A greeting" "2023-05-01" zeroTime)
                       "site" "index" [])
    = [] ++ Printf (generating "Hello") :: Mkdir "site/hello" :: evs
    /\ (evs = []
        \/ evs = [WriteIndexHTML "site/hello" "Hello" "A greeting" "<p>Hi</p>" "index"]
        \/ evs = [WriteIndexHTML "site/hello" "Hello" "A greeting" "<p>Hi</p>" "index";
                  Printf (finished "Hello")]).
Proof.
  apply (generate_post_without_images
           SampleOutput.Template Sample.filepath_Join
           SampleOutput.mkdir_result SampleOutput.readdir_result
           SampleOutput.copy_result SampleOutput.write_result
           SampleOutput.post_without_images
           (mkMeta "Hello" "A greeting" "2023-05-01" zeroTime)
           "site" "index" []).
  reflexivity.
Defined.

Lemma Generate_after_newPost_witness :
  exists meta : Meta,
    Title meta = "Hello"
    /\ Generate SampleOutput.Template Sample.filepath_Join
                SampleOutput.mkdir_result SampleOutput.readdir_result
                SampleOutput.copy_ok SampleOutput.write_result
                (mkPostGenerator
                   (Some (mkPostConfig
                            (Some (mkPost "hello" SamplePost.body_html
                                          (Some (mkMeta "Hello" "A greeting" "2023-05-01"
                                                        (Sample.Date_ 2023 5 1)))
                                          "blog/hello/images" ["b.png"; "a.png"; "raw"]))
                            "site" "index"))) []
       <> None.
Proof.
  destruct (Generate_after_newPost
              Sample.yaml_Unmarshal Sample.time_Parse SamplePost.blackfriday_MarkdownCommon
              Sample.AsHTML_plain SamplePost.html_Parse Sample.html_ParseFragment
              Sample.html_Render SamplePost.os_Open Sample.ioutil_ReadDir
              Sample.filepath_Join Sample.filepath_Base
              SampleOutput.Template
              SampleOutput.mkdir_result SampleOutput.readdir_result
              SampleOutput.copy_ok SampleOutput.write_result
              4 "blog/hello" "2006-01-02"
              (mkPost "hello" SamplePost.body_html
                      (Some (mkMeta "Hello" "A greeting" "2023-05-01"
                                    (Sample.Date_ 2023 5 1)))
                      "blog/hello/images" ["b.png"; "a.png"; "raw"])
              None "site" "index" [] eq_refl)
    as (meta & Hmeta & Hrun).
  exists meta. split.
  - injection Hmeta as Hmeta. now subst meta.
  - intros Hnone. discriminate (eq_trans (eq_sym Hrun) Hnone).
Defined.

(** ** The header check on streams that do not reach it *)

(** C8 as the claim states it fails on a stream whose opening fence is
    valid and that fails with a read error before any closing fence: the
    header accumulated so far is empty, shorter than 3 bytes, and the error
    returned is the read error, not one of the kind InvalidMetadata. *)
Lemma getMeta_read_error_is_not_invalid_metadata :
  HasPrefix (fst (fst (ReadString
                         (mkReader ("---" ++ String nl "ab")
                                   (PathError "read" "blog/hello/post.md" EIO)))))
            "---" = true
  /\ getMeta Sample.yaml_Unmarshal Sample.time_Parse 2
             (mkReader ("---" ++ String nl "ab")
                       (PathError "read" "blog/hello/post.md" EIO))
             "2006-01-02"
     = Some (None,
             Some (Errorf "error ReadString: read blog/hello/post.md: input/output error"),
             mkReader "" (PathError "read" "blog/hello/post.md" EIO))
  /\ ~ getMeta_kind
         (Errorf "error ReadString: read blog/hello/post.md: input/output error")
         InvalidMetadata.
Proof.
  split; [reflexivity | split; [reflexivity |]].
  intros H. inversion H as [ | | e He | e He]; discriminate He.
Qed.

Lemma getMeta_closed_header_invalid_metadata_witness :
  exists e : error,
    getMeta Sample.yaml_Unmarshal Sample.time_Parse 2
            (mkReader (fenced "" ["t"] "" Sample.body) io_EOF) "2006-01-02"
    = Some (None, Some e, mkReader Sample.body io_EOF)
    /\ getMeta_kind e InvalidMetadata.
Proof.
  apply (getMeta_closed_header_invalid_metadata
           Sample.yaml_Unmarshal Sample.time_Parse
           "" "" (String nl Sample.body) Sample.body ["t"] io_EOF "2006-01-02" 2).
  - reflexivity.
  - reflexivity.
  - repeat constructor.
  - left. reflexivity.
  - left. simpl. lia.
  - simpl. lia.
Defined.

(** The same with a header that does not decode and a closing fence that
    the end of the stream cuts short. *)
Example getMeta_closed_header_undecodable_at_end :
  exists e : error,
    getMeta Sample.yaml_Unmarshal Sample.time_Parse 2
            (mkReader ("---" ++ String nl ("title" ++ String nl "---")) io_EOF) "2006-01-02"
    = Some (None, Some e, mkReader "" io_EOF)
    /\ getMeta_kind e InvalidMetadata.
Proof.
  exists (errYaml (lib_error "yaml: unmarshal errors")).
  split; [reflexivity | constructor].
Qed.

(** ** The ordering on the slice with its pointers *)

Lemma slice_at_None {A : Type} (p : list A) (i : Z) :
  slice_at p i = None <-> (i < 0 \/ Z.of_nat (List.length p) <= i)%Z.
Proof.
  unfold slice_at. destruct (Z.ltb_spec i 0) as [Hneg | Hpos].
  - split; [intros _; now left | reflexivity].
  - rewrite nth_error_None. lia.
Qed.

Lemma slice_at_of_nat {A : Type} (p : list A) (i : nat) :
  slice_at p (Z.of_nat i) = nth_error p i.
Proof.
  unfold slice_at. destruct (Z.ltb_spec (Z.of_nat i) 0) as [Hneg | _]; [lia |].
  now rewrite Nat2Z.id.
Qed.

Lemma list_set_map_Some (q : ByDateDesc) :
  forall (i : nat) (x : Post),
    list_set (map Some q) i (Some x) = map Some (set_index q i x).
Proof.
  induction q as [|y q IH]; intros [|i] x; cbn [map list_set set_index];
    try reflexivity.
  now rewrite IH.
Qed.

(** X17: on the slice as Go has it, with elements that may be nil and
    [int] indices, [Swap] panics exactly when one of its two indices is
    negative or not below the length, and [Less] exactly when one index is
    so, or the element at one of them is nil, or the Meta of one of the two
    posts is nil.  On a slice without nil elements and on indices that are
    not negative, this [Less], [Swap] and [Len] are those of the ordering
    above. *)
Theorem PostPointers_panic_exactly :
  (forall (p : PostPointers) (i j : Z),
      PostPointers_.Swap p i j = None
      <-> (i < 0 \/ PostPointers_.Len p <= i \/ j < 0 \/ PostPointers_.Len p <= j)%Z)
  /\ (forall (p : PostPointers) (i j : Z),
         PostPointers_.Less p i j = None
         <-> ((i < 0 \/ PostPointers_.Len p <= i \/ j < 0 \/ PostPointers_.Len p <= j)%Z
              \/ slice_at p i = Some None
              \/ slice_at p j = Some None
              \/ (exists a : Post, slice_at p i = Some (Some a) /\ Post_Meta a = None)
              \/ (exists b : Post, slice_at p j = Some (Some b) /\ Post_Meta b = None)))
  /\ (forall (q : ByDateDesc) (i j : nat),
         PostPointers_.Less (map Some q) (Z.of_nat i) (Z.of_nat j) = Less q i j
         /\ PostPointers_.Swap (map Some q) (Z.of_nat i) (Z.of_nat j)
            = option_map (map Some) (Swap q i j)
         /\ PostPointers_.Len (map Some q) = Z.of_nat (Len q)).
Proof.
  assert (Hrange : forall (p : PostPointers) (i j : Z),
             (i < 0 \/ PostPointers_.Len p <= i \/ j < 0 \/ PostPointers_.Len p <= j)%Z
             <-> slice_at p i = None \/ slice_at p j = None).
  { intros p i j. rewrite !slice_at_None. unfold PostPointers_.Len. tauto. }
  split; [| split].
  - intros p i j. rewrite Hrange. unfold PostPointers_.Swap.
    destruct (slice_at p i) as [a|], (slice_at p j) as [b|]; split;
      try discriminate; try reflexivity; intros H;
      try (destruct H as [H | H]; discriminate H); tauto.
  - intros p i j. rewrite Hrange. unfold PostPointers_.Less.
    destruct (slice_at p i) as [[a|]|] eqn:Hi.
    2: { split; [intros _; right; left; reflexivity | reflexivity]. }
    2: { split; [intros _; left; left; reflexivity | reflexivity]. }
    destruct (slice_at p j) as [[b|]|] eqn:Hj.
    2: { split; [intros _; right; right; left; reflexivity | reflexivity]. }
    2: { split; [intros _; left; right; reflexivity | reflexivity]. }
    destruct (Post_Meta a) as [ma|] eqn:Ha.
    2: { split; [intros _ | reflexivity].
         right; right; right; left. now exists a. }
    destruct (Post_Meta b) as [mb|] eqn:Hb.
    2: { split; [intros _ | reflexivity].
         right; right; right; right. now exists b. }
    split; [discriminate |].
    intros [[H | H] | [H | [H | [(a' & Ha' & Hm) | (b' & Hb' & Hm)]]]];
      try discriminate H.
    + injection Ha' as Ha'. subst a'. congruence.
    + injection Hb' as Hb'. subst b'. congruence.
  - intros q i j.
    cbn [Less Swap Len ByDateDesc_Interface].
    unfold PostPointers_.Less, PostPointers_.Swap, PostPointers_.Len,
           ByDateDesc_.Less, ByDateDesc_.Swap, ByDateDesc_.Len, at_index.
    rewrite !slice_at_of_nat, !nth_error_map, !Nat2Z.id, length_map.
    destruct (nth_error q i) as [a|], (nth_error q j) as [b|]; cbn [option_map];
      repeat split.
    now rewrite !list_set_map_Some.
Qed.

Lemma PostPointers_panic_exactly_witness :
  PostPointers_.Swap [Some Sample.january; None] 0 (-1) = None
  /\ PostPointers_.Swap [Some Sample.january; None] 0 1
     = Some [None; Some Sample.january]
  /\ PostPointers_.Less [Some Sample.january; None] 0 1 = None
  /\ PostPointers_.Less [Some Sample.january; Some (mkPost "draft" "" None "" [])] 0 1
     = None
  /\ PostPointers_.Less [Some Sample.january; Some Sample.june] 1 0 = Some true.
Proof.
  destruct PostPointers_panic_exactly as (HSwap & HLess & Hsame).
  split; [| split; [reflexivity | split; [| split]]].
  - apply (proj2 (HSwap [Some Sample.january; None] 0%Z (-1)%Z)).
    right; right; left. lia.
  - apply (proj2 (HLess [Some Sample.january; None] 0%Z 1%Z)).
    right; right; left. reflexivity.
  - apply (proj2 (HLess [Some Sample.january; Some (mkPost "draft" "" None "" [])]
                        0%Z 1%Z)).
    right; right; right; right. exists (mkPost "draft" "" None "" []).
    split; reflexivity.
  - exact (proj1 (Hsame [Sample.january; Sample.june] 1 0)).
Defined.
